(** * MAX30101 sample sketches: confidence filtering, top-5 selection and
      windowed averaging

    The repository holds three Arduino sketches (v2, v3 and v4) that poll
    the heart-rate / SpO2 sensor hub, keep the readings whose confidence is
    above 50 and print averages about once per second.  Each sketch is
    embedded below in a module of its own, as a program of a small state
    monad over the sketch's global variables and the outside world (the
    sensor driver, the millisecond clock and the serial console).

    Conventions of the embedding:
    - C integers are [Z]; the [unsigned long] difference of two clock
      values wraps modulo 2^32 and is written out in [ulong_sub];
    - C [float] is IEEE 754 single precision, [float32]: the conversions
      from integers, the additions and the divisions of the sketches are
      those of the Standard Library's [SpecFloat] at precision 24, which
      round to the nearest float, ties to even;
    - [long] is 32 bits wide, as on every Arduino board; the width of
      [int], 16 bits on the AVR boards and 32 bits on the ARM and ESP
      boards, is a parameter of the environment ([int_bits]); a conversion
      or a sum that leaves the range of its signed type wraps in two's
      complement ([wrap_signed]), and the [long] averages of v3 keep C's
      truncating integer division;
    - counters and array indices, which the sketches keep between 0 and
      100, are [nat];
    - the fixed-size arrays [topReadings] and [readings] are lists read
      with stdpp's [!!!] and written with [<[i:=x]>]. *)

From Stdlib Require Import ZArith QArith String DecimalString List Lia.
From Stdlib Require Import Floats.SpecFloat.
From stdpp Require Import base decidable list sorting.

Local Open Scope Z_scope.

(** ** The Arduino runtime and the sensor driver *)

Module Hw.

(** Modelled from the spec: the declaration of the driver's reading record
    [bioData] belongs to the vendor library and is not part of the
    repository; the spec lists its fields as heart rate, confidence,
    oxygen saturation, two raw LED intensities and a status code.  The
    fields hold the values as integers; in the vendor library the LED
    intensities are 32-bit, heart rate and oxygen 16-bit, confidence and
    status 8-bit unsigned integers. *)
Record bioData : Type := mkBio {
  irLed : Z;
  redLed : Z;
  heartRate : Z;
  confidence : Z;
  oxygen : Z;
  status : Z
}.

Definition bio_zero : bioData := mkBio 0 0 0 0 0 0.

(** [a - b] on [unsigned long] operands. *)
Definition ulong_sub (a b : Z) : Z := (a - b) mod 2 ^ 32.

(** The value [z] reduced to a signed integer type of [bits] bits, in
    two's complement. *)
Definition wrap_signed (bits z : Z) : Z :=
  (z + 2 ^ (bits - 1)) mod 2 ^ bits - 2 ^ (bits - 1).

(** Conversion to [int], on a board whose [int] has [bits] bits. *)
Definition to_int (bits z : Z) : Z := wrap_signed bits z.

(** Conversion to [long]. *)
Definition to_long (z : Z) : Z := wrap_signed 32 z.

(** C [float]: IEEE 754 binary32, that is precision 24 and exponents
    below 128. *)
Definition float32 : Type := spec_float.

(** The [float] that the literal [0] converts to. *)
Definition float_zero : float32 := S754_zero false.

(** Conversion of an integer to [float]. *)
Definition float_of_Z (z : Z) : float32 := binary_normalize 24 128 z 0 false.

(** [x + y] and [x / y] on [float] operands. *)
Definition float_add (x y : float32) : float32 := SFadd 24 128 x y.
Definition float_div (x y : float32) : float32 := SFdiv 24 128 x y.

(** [x += z] for a [float] [x] and an integer [z]: [z] is converted to
    [float] and added. *)
Definition float_add_Z (x : float32) (z : Z) : float32 := float_add x (float_of_Z z).

(** [x / n] for a [float] [x] and an integer count [n]. *)
Definition float_div_nat (x : float32) (n : nat) : float32 :=
  float_div x (float_of_Z (Z.of_nat n)).

(** What the sketches hand to [Serial.print] and [Serial.println]:
    a string, an integer, or a float with a number of decimals. *)
Inductive pval : Type :=
  | VStr (s : string)
  | VInt (z : Z)
  | VFlt (x : float32) (decimals : nat).

(** The driver calls of [setup] that return an integer code or value. *)
Inductive driver_call : Type :=
  | Begin
  | ConfigSensorBpm
  | SetPulseWidth (width : Z)
  | ReadPulseWidth
  | SetSampleRate (samples : Z)
  | ReadSampleRate.

(** Everything a sketch does to the outside world, in program order. *)
Inductive event : Type :=
  | SerialBegin (baud : Z)
  | WireBegin
  | Call (c : driver_call) (ret : Z)
  | ReadSensorBpm (b : bioData)
  | Millis (t : Z)
  | Delay (ms : Z)
  | Print (v : pval)
  | Println (v : pval).

(** The environment: the board, and what the driver and the clock answer.
    [int_bits] is the width of the board's [int]; the codes and values of
    the driver calls of [setup] are given as the [int] variables of the
    sketches receive them; [sensor k] is the [k]-th record delivered by
    [readSensorBpm], [clock k] the value of the [k]-th call of [millis]. *)
Record env : Type := mkEnv {
  int_bits : Z;
  begin_code : Z;
  config_code : Z;
  pulse_code : Z;
  pulse_val : Z;
  rate_code : Z;
  rate_val : Z;
  sensor : nat -> bioData;
  clock : nat -> Z
}.

(** The world as a sketch has used it so far. *)
Record world : Type := mkWorld {
  reads : nat;          (* calls of readSensorBpm so far *)
  ticks : nat;          (* calls of millis so far *)
  trace : list event    (* all events so far, oldest first *)
}.

Definition world0 : world := mkWorld 0 0 [].

Definition emit (ev : event) (w : world) : world :=
  mkWorld (reads w) (ticks w) (trace w ++ [ev]).

(** Programs over globals [G]: read the environment, update the globals
    and the world, return a value. *)
Definition prog (G A : Type) : Type := env -> G -> world -> A * G * world.

Definition ret {G A} (a : A) : prog G A := fun _ g w => (a, g, w).

Definition bind {G A B} (m : prog G A) (k : A -> prog G B) : prog G B :=
  fun e g w => let '(a, g1, w1) := m e g w in k a e g1 w1.

Definition get {G} : prog G G := fun _ g w => (g, g, w).
Definition int_width {G} : prog G Z := fun e g w => (int_bits e, g, w).
Definition put {G} (g : G) : prog G unit := fun _ _ w => (tt, g, w).
Definition modify {G} (f : G -> G) : prog G unit := fun _ g w => (tt, f g, w).
Definition out {G} (ev : event) : prog G unit := fun _ g w => (tt, g, emit ev w).

Definition print {G} (v : pval) : prog G unit := out (Print v).
Definition println {G} (v : pval) : prog G unit := out (Println v).
Definition delay {G} (ms : Z) : prog G unit := out (Delay ms).

Definition driver {G} (c : driver_call) (answer : env -> Z) : prog G Z :=
  fun e g w => (answer e, g, emit (Call c (answer e)) w).

Definition readSensorBpm {G} : prog G bioData :=
  fun e g w =>
    let b := sensor e (reads w) in
    (b, g, mkWorld (S (reads w)) (ticks w) (trace w ++ [ReadSensorBpm b])).

Definition millis {G} : prog G Z :=
  fun e g w =>
    let t := clock e (ticks w) in
    (t, g, mkWorld (reads w) (S (ticks w)) (trace w ++ [Millis t])).

(** [for (i = 0; i < n; i++) body(i)] *)
Fixpoint for_up {G} (i : nat) (n : nat) (body : nat -> prog G unit) : prog G unit :=
  match n with
  | O => ret tt
  | S n' => bind (body i) (fun _ => for_up (S i) n' body)
  end.

(** [k] calls of [loop()] in a row. *)
Fixpoint iterate {G} (k : nat) (p : prog G unit) : prog G unit :=
  match k with
  | O => ret tt
  | S k' => bind p (fun _ => iterate k' p)
  end.

Definition globals_of {G A} (r : A * G * world) : G := snd (fst r).
Definition world_of {G A} (r : A * G * world) : world := snd r.
Definition value_of {G A} (r : A * G * world) : A := fst (fst r).

(** The events a run added to the trace. *)
Definition emitted (before after : world) : list event :=
  drop (length (trace before)) (trace after).

(** The value printed right after the label [lbl], if any. *)
Fixpoint printed_after (lbl : string) (tr : list event) : option pval :=
  match tr with
  | Print (VStr s) :: ((Print v | Println v) :: _) as rest =>
      if String.eqb s lbl then Some v else printed_after lbl rest
  | _ :: rest => printed_after lbl rest
  | [] => None
  end.

End Hw.

Export Hw.

Declare Scope prog_scope.
Delimit Scope prog_scope with prog.
Notation "x <- m ;;; k" := (bind m (fun x => k))
  (at level 100, m at next level, k at level 200, right associativity) : prog_scope.
Notation "m ;;; k" := (bind m (fun _ => k))
  (at level 100, k at level 200, right associativity) : prog_scope.

Local Open Scope prog_scope.

Definition when {G} (c : bool) (p : prog G unit) : prog G unit :=
  if c then p else ret tt.

(** [arr[i]] on an array held as a list is stdpp's total lookup
    [arr !!! i]; the sketches only use indices below the array's size. *)
#[global] Instance bioData_inhabited : Inhabited bioData := populate bio_zero.

(** ** v4: replace-the-minimum top-5 buffer *)

Module V4.

Definition width : Z := 411.
Definition samples : Z := 400.
Definition NUM_READINGS : nat := 5.
Definition reportInterval : Z := 1000.

Record globals : Type := mkGlobals {
  pulseWidthVal : Z;
  sampleVal : Z;
  body : bioData;                 (* the most recent sensor reading *)
  topReadings : list bioData;     (* bioData topReadings[NUM_READINGS] *)
  lastReportTime : Z
}.

(** Globals as C initialises them, before [setup] runs. *)
Definition globals0 : globals :=
  mkGlobals 0 0 bio_zero (replicate NUM_READINGS bio_zero) 0.

Definition set_pulseWidthVal (v : Z) (g : globals) : globals :=
  mkGlobals v (sampleVal g) (body g) (topReadings g) (lastReportTime g).
Definition set_sampleVal (v : Z) (g : globals) : globals :=
  mkGlobals (pulseWidthVal g) v (body g) (topReadings g) (lastReportTime g).
Definition set_body (b : bioData) (g : globals) : globals :=
  mkGlobals (pulseWidthVal g) (sampleVal g) b (topReadings g) (lastReportTime g).
Definition set_topReadings (t : list bioData) (g : globals) : globals :=
  mkGlobals (pulseWidthVal g) (sampleVal g) (body g) t (lastReportTime g).
Definition set_lastReportTime (t : Z) (g : globals) : globals :=
  mkGlobals (pulseWidthVal g) (sampleVal g) (body g) (topReadings g) t.

(** [topReadings[i].confidence = 0; .heartRate = 0; .oxygen = 0;]
    the other fields of the slot keep their values. *)
Definition clear_slot (b : bioData) : bioData :=
  mkBio (irLed b) (redLed b) 0 0 0 (status b).

(** The reset loop of [setup] and of the report. *)
Definition reset_top : prog globals unit :=
  for_up 0 NUM_READINGS (fun i =>
    modify (fun g =>
      set_topReadings (<[i := clear_slot (topReadings g !!! i)]> (topReadings g)) g)).

Definition setup : prog globals unit :=
  out (SerialBegin 115200) ;;;
  out WireBegin ;;;
  result <- driver Begin begin_code ;;;
  when (result =? 0) (println (VStr "Sensor started!")) ;;;
  println (VStr "Configuring Sensor....") ;;;
  error <- driver ConfigSensorBpm config_code ;;;
  (if error =? 0 then println (VStr "Sensor configured.")
   else println (VStr "Error configuring sensor.") ;;;
        print (VStr "Error: ") ;;;
        println (VInt error)) ;;;
  error <- driver (SetPulseWidth width) pulse_code ;;;
  (if error =? 0 then println (VStr "Pulse Width Set.")
   else println (VStr "Could not set Pulse Width.") ;;;
        print (VStr "Error: ") ;;;
        println (VInt error)) ;;;
  v <- driver ReadPulseWidth pulse_val ;;;
  modify (set_pulseWidthVal v) ;;;
  print (VStr "Pulse Width: ") ;;;
  println (VInt v) ;;;
  error <- driver (SetSampleRate samples) rate_code ;;;
  (if error =? 0 then println (VStr "Sample Rate Set.")
   else println (VStr "Could not set Sample Rate!") ;;;
        print (VStr "Error: ") ;;;
        println (VInt error)) ;;;
  v <- driver ReadSampleRate rate_val ;;;
  modify (set_sampleVal v) ;;;
  print (VStr "Sample rate is set to: ") ;;;
  println (VInt v) ;;;
  reset_top ;;;
  println (VStr "
Now collecting data. Averaged report will be displayed every second.") ;;;
  println (VStr "Make sure your finger is placed firmly on the sensor.") ;;;
  delay 2000.

(** The search for the slot of lowest confidence:
    [for (i = 1; i < NUM_READINGS; i++)
       if (topReadings[i].confidence < topReadings[min].confidence) min = i;]
    [k] is the number of iterations left. *)
Fixpoint min_scan (arr : list bioData) (m i k : nat) : nat :=
  match k with
  | O => m
  | S k' =>
      min_scan arr
        (if confidence (arr !!! i) <? confidence (arr !!! m) then i else m)
        (S i) k'
  end.

Definition minConfidenceIndex (arr : list bioData) : nat :=
  min_scan arr 0 1 (NUM_READINGS - 1).

(** Lines 127-141: what one reading does to the buffer. *)
Definition keep_best (arr : list bioData) (b : bioData) : list bioData :=
  if 50 <? confidence b then
    let m := minConfidenceIndex arr in
    if confidence (arr !!! m) <? confidence b then <[m := b]> arr else arr
  else arr.

(** The summing loop of the report: total heart rate, total oxygen and
    the number of populated slots (confidence > 0). *)
Fixpoint sum_top (arr : list bioData) (i k : nat) (acc : float32 * float32 * nat)
    : float32 * float32 * nat :=
  match k with
  | O => acc
  | S k' =>
      let '(hr, ox, n) := acc in
      sum_top arr (S i) k'
        (if 0 <? confidence (arr !!! i)
         then (float_add_Z hr (heartRate (arr !!! i)),
               float_add_Z ox (oxygen (arr !!! i)), S n)
         else acc)
  end.

Definition totals (arr : list bioData) : float32 * float32 * nat :=
  sum_top arr 0 NUM_READINGS (float_zero, float_zero, O).

(** [millis() - lastReportTime >= reportInterval] *)
Definition due (now last : Z) : bool := reportInterval <=? ulong_sub now last.

Definition report : prog globals unit :=
  t <- millis ;;;
  modify (set_lastReportTime t) ;;;
  g <- get ;;;
  let '(totalHeartRate, totalOxygen, validReadingsCount) := totals (topReadings g) in
  println (VStr "----------------------------------------") ;;;
  (if Nat.eqb validReadingsCount NUM_READINGS then
     let avgHeartRate := float_div_nat totalHeartRate NUM_READINGS in
     let avgOxygen := float_div_nat totalOxygen NUM_READINGS in
     print (VStr "Time: ") ;;;
     t' <- millis ;;;
     print (VInt (t' / 1000)) ;;;
     println (VStr "s") ;;;
     println (VStr "Averaged Report (from top 5 readings):") ;;;
     print (VStr "Average Heart Rate: ") ;;;
     println (VFlt avgHeartRate 2) ;;;
     print (VStr "Average SpO2: ") ;;;
     println (VFlt avgOxygen 2)
   else
     print (VStr "Collecting high-confidence data... (") ;;;
     print (VInt (Z.of_nat validReadingsCount)) ;;;
     print (VStr "/") ;;;
     print (VInt (Z.of_nat NUM_READINGS)) ;;;
     println (VStr " collected)")) ;;;
  println (VStr "----------------------------------------") ;;;
  reset_top.

Definition loop : prog globals unit :=
  b <- readSensorBpm ;;;
  modify (set_body b) ;;;
  modify (fun g => set_topReadings (keep_best (topReadings g) (body g)) g) ;;;
  now <- millis ;;;
  g <- get ;;;
  when (due now (lastReportTime g)) report.

End V4.

(** ** v3: collect up to 100 readings, sort them at report time *)

Module V3.

Definition width : Z := 411.
Definition samples : Z := 400.
Definition MAX_READINGS : nat := 100.
Definition DISPLAY_INTERVAL : Z := 1000.

(** [struct Reading], the sketch's own copy of a sensor record. *)
Record Reading : Type := mkReading {
  heartRate : Z;
  confidence : Z;
  oxygen : Z;
  irLed : Z;
  redLed : Z;
  status : Z
}.

Definition reading_zero : Reading := mkReading 0 0 0 0 0 0.
#[global] Instance Reading_inhabited : Inhabited Reading := populate reading_zero.

(** The six field assignments of lines 126-131, each a conversion to
    [int], of [bits] bits.  The driver's confidence and status are bytes,
    which every [int] holds unchanged; heart rate, oxygen and the LED
    intensities are wider and wrap when they leave the range of [int]. *)
Definition of_bio (bits : Z) (b : bioData) : Reading :=
  mkReading (to_int bits (Hw.heartRate b)) (Hw.confidence b) (to_int bits (Hw.oxygen b))
            (to_int bits (Hw.irLed b)) (to_int bits (Hw.redLed b)) (Hw.status b).

Record globals : Type := mkGlobals {
  pulseWidthVal : Z;
  sampleVal : Z;
  readings : list Reading;        (* Reading readings[MAX_READINGS] *)
  readingCount : nat;
  lastDisplayTime : Z;
  body : bioData
}.

Definition globals0 : globals :=
  mkGlobals 0 0 (replicate MAX_READINGS reading_zero) 0 0 bio_zero.

Definition set_pulseWidthVal (v : Z) (g : globals) : globals :=
  mkGlobals v (sampleVal g) (readings g) (readingCount g) (lastDisplayTime g) (body g).
Definition set_sampleVal (v : Z) (g : globals) : globals :=
  mkGlobals (pulseWidthVal g) v (readings g) (readingCount g) (lastDisplayTime g) (body g).
Definition set_readings (r : list Reading) (g : globals) : globals :=
  mkGlobals (pulseWidthVal g) (sampleVal g) r (readingCount g) (lastDisplayTime g) (body g).
Definition set_readingCount (n : nat) (g : globals) : globals :=
  mkGlobals (pulseWidthVal g) (sampleVal g) (readings g) n (lastDisplayTime g) (body g).
Definition set_lastDisplayTime (t : Z) (g : globals) : globals :=
  mkGlobals (pulseWidthVal g) (sampleVal g) (readings g) (readingCount g) t (body g).
Definition set_body (b : bioData) (g : globals) : globals :=
  mkGlobals (pulseWidthVal g) (sampleVal g) (readings g) (readingCount g) (lastDisplayTime g) b.

(** The body of the inner loop of the sort:
    [if (arr[j].confidence < arr[j + 1].confidence) swap(arr[j], arr[j + 1])] *)
Definition swap_if_less (arr : list Reading) (j : nat) : list Reading :=
  if confidence (arr !!! j) <? confidence (arr !!! S j) then
    let temp := arr !!! j in
    <[S j := temp]> (<[j := arr !!! S j]> arr)
  else arr.

(** [for (j = ...; j < ...; j++)] with [k] iterations left. *)
Fixpoint bubble_pass (arr : list Reading) (j k : nat) : list Reading :=
  match k with
  | O => arr
  | S k' => bubble_pass (swap_if_less arr j) (S j) k'
  end.

(** [for (i = ...; i < n - 1; i++)] with [k] iterations left; the inner
    loop runs [j] from 0 while [j < n - i - 1]. *)
Fixpoint sort_passes (arr : list Reading) (n i k : nat) : list Reading :=
  match k with
  | O => arr
  | S k' => sort_passes (bubble_pass arr 0 (n - i - 1)) n (S i) k'
  end.

Definition sortReadingsByConfidence (arr : list Reading) (n : nat) : list Reading :=
  sort_passes arr n 0 (n - 1).

Definition setup : prog globals unit :=
  out (SerialBegin 115200) ;;;
  out WireBegin ;;;
  result <- driver Begin begin_code ;;;
  when (result =? 0) (println (VStr "Sensor started!")) ;;;
  println (VStr "Configuring Sensor....") ;;;
  error <- driver ConfigSensorBpm config_code ;;;
  (if error =? 0 then println (VStr "Sensor configured.")
   else println (VStr "Error configuring sensor.") ;;;
        print (VStr "Error: ") ;;;
        println (VInt error)) ;;;
  error <- driver (SetPulseWidth width) pulse_code ;;;
  (if error =? 0 then println (VStr "Pulse Width Set.")
   else println (VStr "Could not set Pulse Width.") ;;;
        print (VStr "Error: ") ;;;
        println (VInt error)) ;;;
  v <- driver ReadPulseWidth pulse_val ;;;
  modify (set_pulseWidthVal v) ;;;
  print (VStr "Pulse Width: ") ;;;
  println (VInt v) ;;;
  error <- driver (SetSampleRate samples) rate_code ;;;
  (if error =? 0 then println (VStr "Sample Rate Set.")
   else println (VStr "Could not set Sample Rate!") ;;;
        print (VStr "Error: ") ;;;
        println (VInt error)) ;;;
  v <- driver ReadSampleRate rate_val ;;;
  modify (set_sampleVal v) ;;;
  print (VStr "Sample rate is set to: ") ;;;
  println (VInt v) ;;;
  println (VStr "Loading up the buffer with data....") ;;;
  delay 4000 ;;;
  t <- millis ;;;
  modify (set_lastDisplayTime t).

(** Lines 125-133: store the reading if it is confident enough and the
    array has room; [bits] is the width of [int]. *)
Definition store (bits : Z) (g : globals) : globals :=
  if (50 <? Hw.confidence (body g)) && (readingCount g <? MAX_READINGS)%nat then
    set_readingCount (S (readingCount g))
      (set_readings (<[readingCount g := of_bio bits (body g)]> (readings g)) g)
  else g.

(** The five running totals of lines 144-156, over [arr[i]], [i < k]. *)
Record sums : Type := mkSums {
  sumHeartRate : float32;    (* float avgHeartRate *)
  sumOxygen : float32;       (* float avgOxygen *)
  sumConfidence : float32;   (* float avgConfidence *)
  sumIrLed : Z;              (* long avgIrLed *)
  sumRedLed : Z              (* long avgRedLed *)
}.

(** The totals as lines 144-148 initialise them. *)
Definition sums_zero : sums := mkSums float_zero float_zero float_zero 0 0.

Fixpoint sum_first (arr : list Reading) (i k : nat) (acc : sums) : sums :=
  match k with
  | O => acc
  | S k' =>
      sum_first arr (S i) k'
        (mkSums (float_add_Z (sumHeartRate acc) (heartRate (arr !!! i)))
                (float_add_Z (sumOxygen acc) (oxygen (arr !!! i)))
                (float_add_Z (sumConfidence acc) (confidence (arr !!! i)))
                (to_long (sumIrLed acc + irLed (arr !!! i)))
                (to_long (sumRedLed acc + redLed (arr !!! i))))
  end.

(** Lines 158-162: every total divided by [numToAverage]; the two [long]
    totals by C's integer division. *)
Definition averages (arr : list Reading) (numToAverage : nat) : sums :=
  let t := sum_first arr 0 numToAverage sums_zero in
  mkSums (float_div_nat (sumHeartRate t) numToAverage)
         (float_div_nat (sumOxygen t) numToAverage)
         (float_div_nat (sumConfidence t) numToAverage)
         (Z.quot (sumIrLed t) (Z.of_nat numToAverage))
         (Z.quot (sumRedLed t) (Z.of_nat numToAverage)).

(** [String(n)] for a non-negative [int]. *)
Definition String_of_nat (n : nat) : string :=
  NilZero.string_of_uint (Nat.to_uint n).

(** [currentTime - lastDisplayTime >= DISPLAY_INTERVAL && readingCount > 0] *)
Definition due (currentTime : Z) (g : globals) : bool :=
  (DISPLAY_INTERVAL <=? ulong_sub currentTime (lastDisplayTime g))
  && (0 <? readingCount g)%nat.

Definition report (currentTime : Z) : prog globals unit :=
  modify (fun g => set_readings (sortReadingsByConfidence (readings g) (readingCount g)) g) ;;;
  g <- get ;;;
  let numToAverage := Nat.min 5 (readingCount g) in
  let avg := averages (readings g) numToAverage in
  println (VStr ("
=== AVERAGED RESULTS (Top " ++ String_of_nat numToAverage ++ " readings) ===")) ;;;
  print (VStr "Average Heartrate: ") ;;;
  println (VFlt (sumHeartRate avg) 1) ;;;
  print (VStr "Average Blood Oxygen: ") ;;;
  println (VFlt (sumOxygen avg) 1) ;;;
  print (VStr "Average Confidence: ") ;;;
  println (VFlt (sumConfidence avg) 1) ;;;
  print (VStr "Average IR LED: ") ;;;
  println (VInt (sumIrLed avg)) ;;;
  print (VStr "Average Red LED: ") ;;;
  println (VInt (sumRedLed avg)) ;;;
  print (VStr "Total readings collected: ") ;;;
  println (VInt (Z.of_nat (readingCount g))) ;;;
  println (VStr "================================
") ;;;
  modify (set_readingCount 0) ;;;
  modify (set_lastDisplayTime currentTime).

Definition loop : prog globals unit :=
  b <- readSensorBpm ;;;
  modify (set_body b) ;;;
  bits <- int_width ;;;
  modify (store bits) ;;;
  currentTime <- millis ;;;
  g <- get ;;;
  when (due currentTime g) (report currentTime) ;;;
  delay 10.

End V3.

(** ** v2: running sums of up to five accepted readings *)

Module V2.

Definition width : Z := 411.
Definition samples : Z := 400.
Definition TARGET_READINGS : nat := 5.
Definition DISPLAY_INTERVAL : Z := 1000.

Record globals : Type := mkGlobals {
  pulseWidthVal : Z;
  sampleVal : Z;
  body : bioData;
  validReadingsCount : nat;
  heartRateSum : float32;
  oxygenSum : float32;
  irLedSum : float32;
  redLedSum : float32;
  lastDisplayTime : Z
}.

Definition globals0 : globals :=
  mkGlobals 0 0 bio_zero 0 float_zero float_zero float_zero float_zero 0.

Definition set_pulseWidthVal (v : Z) (g : globals) : globals :=
  mkGlobals v (sampleVal g) (body g) (validReadingsCount g) (heartRateSum g)
            (oxygenSum g) (irLedSum g) (redLedSum g) (lastDisplayTime g).
Definition set_sampleVal (v : Z) (g : globals) : globals :=
  mkGlobals (pulseWidthVal g) v (body g) (validReadingsCount g) (heartRateSum g)
            (oxygenSum g) (irLedSum g) (redLedSum g) (lastDisplayTime g).
Definition set_body (b : bioData) (g : globals) : globals :=
  mkGlobals (pulseWidthVal g) (sampleVal g) b (validReadingsCount g) (heartRateSum g)
            (oxygenSum g) (irLedSum g) (redLedSum g) (lastDisplayTime g).
Definition set_lastDisplayTime (t : Z) (g : globals) : globals :=
  mkGlobals (pulseWidthVal g) (sampleVal g) (body g) (validReadingsCount g)
            (heartRateSum g) (oxygenSum g) (irLedSum g) (redLedSum g) t.

(** The test of line 152. *)
Definition valid (b : bioData) : bool :=
  (50 <? confidence b) && (0 <? heartRate b) && (0 <? oxygen b).

(** Lines 154-158: add the reading to the running totals. *)
Definition accumulate (g : globals) : globals :=
  mkGlobals (pulseWidthVal g) (sampleVal g) (body g)
            (S (validReadingsCount g))
            (float_add_Z (heartRateSum g) (heartRate (body g)))
            (float_add_Z (oxygenSum g) (oxygen (body g)))
            (float_add_Z (irLedSum g) (irLed (body g)))
            (float_add_Z (redLedSum g) (redLed (body g)))
            (lastDisplayTime g).

(** Lines 212-217: reset for the next collection period. *)
Definition reset (currentTime : Z) (g : globals) : globals :=
  mkGlobals (pulseWidthVal g) (sampleVal g) (body g) 0
            float_zero float_zero float_zero float_zero currentTime.

(** [(currentTime - lastDisplayTime >= DISPLAY_INTERVAL)
     || (validReadingsCount >= TARGET_READINGS)] *)
Definition due (currentTime : Z) (g : globals) : bool :=
  (DISPLAY_INTERVAL <=? ulong_sub currentTime (lastDisplayTime g))
  || (TARGET_READINGS <=? validReadingsCount g)%nat.

(** The stabilisation loop of [setup]: twenty readings, printed and
    dropped. *)
Definition stabilise : prog globals unit :=
  for_up 0 20 (fun _ =>
    b <- readSensorBpm ;;;
    modify (set_body b) ;;;
    print (VStr "Stabilization reading - HR: ") ;;;
    print (VInt (heartRate b)) ;;;
    print (VStr ", Confidence: ") ;;;
    print (VInt (confidence b)) ;;;
    print (VStr ", Status: ") ;;;
    println (VInt (status b)) ;;;
    delay 100).

Definition setup : prog globals unit :=
  out (SerialBegin 115200) ;;;
  out WireBegin ;;;
  result <- driver Begin begin_code ;;;
  when (result =? 0) (println (VStr "Sensor started!")) ;;;
  println (VStr "Configuring Sensor....") ;;;
  error <- driver ConfigSensorBpm config_code ;;;
  (if error =? 0 then println (VStr "Sensor configured.")
   else println (VStr "Error configuring sensor.") ;;;
        print (VStr "Error: ") ;;;
        println (VInt error)) ;;;
  error <- driver (SetPulseWidth width) pulse_code ;;;
  (if error =? 0 then println (VStr "Pulse Width Set.")
   else println (VStr "Could not set Pulse Width.") ;;;
        print (VStr "Error: ") ;;;
        println (VInt error)) ;;;
  v <- driver ReadPulseWidth pulse_val ;;;
  modify (set_pulseWidthVal v) ;;;
  print (VStr "Pulse Width: ") ;;;
  println (VInt v) ;;;
  error <- driver (SetSampleRate samples) rate_code ;;;
  (if error =? 0 then println (VStr "Sample Rate Set.")
   else println (VStr "Could not set Sample Rate!") ;;;
        print (VStr "Error: ") ;;;
        println (VInt error)) ;;;
  v <- driver ReadSampleRate rate_val ;;;
  modify (set_sampleVal v) ;;;
  print (VStr "Sample rate is set to: ") ;;;
  println (VInt v) ;;;
  println (VStr "Loading up the buffer with data....") ;;;
  delay 4000 ;;;
  println (VStr "Allowing sensor to stabilize...") ;;;
  stabilise ;;;
  t <- millis ;;;
  modify (set_lastDisplayTime t) ;;;
  println (VStr "Starting data collection...") ;;;
  println (VStr "Only readings with confidence > 50 will be used for averaging.") ;;;
  println (VStr "Displaying averages of 5 valid readings every second.") ;;;
  println (VStr "----------------------------------------").

(** Lines 184-209: print the averages, or that there is nothing to
    average. *)
Definition display (g : globals) : prog globals unit :=
  if (0 <? validReadingsCount g)%nat then
    let avgHeartRate := float_div_nat (heartRateSum g) (validReadingsCount g) in
    let avgOxygen := float_div_nat (oxygenSum g) (validReadingsCount g) in
    let avgIrLed := float_div_nat (irLedSum g) (validReadingsCount g) in
    let avgRedLed := float_div_nat (redLedSum g) (validReadingsCount g) in
    println (VStr "========================================") ;;;
    print (VStr "AVERAGES (") ;;;
    print (VInt (Z.of_nat (validReadingsCount g))) ;;;
    println (VStr " valid readings):") ;;;
    print (VStr "Average Heart Rate: ") ;;;
    print (VFlt avgHeartRate 1) ;;;
    println (VStr " BPM") ;;;
    print (VStr "Average Blood Oxygen: ") ;;;
    print (VFlt avgOxygen 1) ;;;
    println (VStr "%") ;;;
    print (VStr "Average IR LED counts: ") ;;;
    println (VFlt avgIrLed 0) ;;;
    print (VStr "Average Red LED counts: ") ;;;
    println (VFlt avgRedLed 0) ;;;
    println (VStr "========================================")
  else
    println (VStr "No valid readings (confidence > 50) in the last second.").

Definition loop : prog globals unit :=
  b <- readSensorBpm ;;;
  modify (set_body b) ;;;
  (if valid b then
     modify accumulate ;;;
     g <- get ;;;
     print (VStr "Valid reading #") ;;;
     print (VInt (Z.of_nat (validReadingsCount g))) ;;;
     print (VStr " - HR: ") ;;;
     print (VInt (heartRate b)) ;;;
     print (VStr ", O2: ") ;;;
     print (VInt (oxygen b)) ;;;
     print (VStr ", Confidence: ") ;;;
     println (VInt (confidence b))
   else
     print (VStr "Rejected - HR: ") ;;;
     print (VInt (heartRate b)) ;;;
     print (VStr ", O2: ") ;;;
     print (VInt (oxygen b)) ;;;
     print (VStr ", Confidence: ") ;;;
     print (VInt (confidence b)) ;;;
     print (VStr ", Status: ") ;;;
     println (VInt (status b))) ;;;
  currentTime <- millis ;;;
  g <- get ;;;
  when (due currentTime g)
    (display g ;;;
     modify (reset currentTime)) ;;;
  delay 100.

End V2.

(** ** Notions the properties are stated with *)

(** Order of a descending sort of confidence values. *)
Definition desc (x y : Z) : Prop := y <= x.

#[global] Instance desc_dec : RelDecision desc := fun x y => Z_le_dec y x.
#[global] Instance desc_total : Total desc.
Proof. intros x y. unfold desc. lia. Qed.
#[global] Instance desc_trans : Transitive desc.
Proof. intros x y z. unfold desc. lia. Qed.
#[global] Instance desc_antisymm : AntiSymm (=) desc.
Proof. intros x y. unfold desc. lia. Qed.

Definition sort_desc (l : list Z) : list Z := merge_sort desc l.

(** The [k] highest values of [l], highest first. *)
Definition top_k (k : nat) (l : list Z) : list Z := take k (sort_desc l).

(** A reading passes the confidence threshold of the sketches. *)
Definition confident (b : bioData) : Prop := 50 < confidence b.
#[global] Instance confident_dec b : Decision (confident b) := Z_lt_dec _ _.

(** A slot of [topReadings] counts as populated when its confidence is
    positive (line 155 of v4). *)
Definition populated (b : bioData) : Prop := 0 < confidence b.
#[global] Instance populated_dec b : Decision (populated b) := Z_lt_dec _ _.

(** The sum of a list of integers. *)
Definition sumZ (l : list Z) : Z := foldr Z.add 0 l.

(** The arithmetic mean of a list of integers. *)
Definition mean (l : list Z) : Q :=
  (inject_Z (sumZ l) / inject_Z (Z.of_nat (length l)))%Q.

(** The sum of a list of integers as the sketches compute it in a
    [float]: from zero, one [+=] per value, first to last. *)
Definition float_sum (l : list Z) : float32 := foldl float_add_Z float_zero l.

(** The mean of a list of integers as the sketches compute it in
    [float]s: the [float] sum divided by the number of values. *)
Definition float_mean (l : list Z) : float32 := float_div_nat (float_sum l) (length l).

(** The positive [p] shifted left by [n] bits. *)
Fixpoint shl (p : positive) (n : nat) : positive :=
  match n with
  | O => p
  | S n' => xO (shl p n')
  end.

(** The [float] that holds the positive integer [p] of at most 24 bits:
    [p] shifted to 24 bits, with the exponent that undoes the shift. *)
Definition norm (p : positive) : float32 :=
  S754_finite false (shl p (Z.to_nat (24 - Zpos (digits2_pos p)))) (Zpos (digits2_pos p) - 24).

(** The rational number that a finite [float] stands for. *)
Definition float_to_Q (x : float32) : option Q :=
  match x with
  | S754_zero _ => Some 0%Q
  | S754_finite s m e =>
      Some (inject_Z (if s then Z.neg m else Z.pos m) * Qpower (2 # 1) e)%Q
  | S754_infinity _ | S754_nan => None
  end.

(** The [long] average of v3 of a list of integers: their sum, in a
    [long], divided as C divides integers. *)
Definition long_mean (l : list Z) : Z :=
  Z.quot (to_long (sumZ l)) (Z.of_nat (length l)).

(** Does the event print the text [s]? *)
Definition says (s : string) (ev : event) : bool :=
  match ev with
  | Print (VStr t) | Println (VStr t) => String.eqb s t
  | _ => false
  end.

(** A run of [k] loop iterations that also tracks the current window: the
    readings fetched since the last iteration that reported.  [reports]
    tells whether the iteration that starts in a given state reports. *)
Fixpoint run_window {G} (loop : prog G unit) (reports : env -> G -> world -> bool)
    (e : env) (k : nat) (g : G) (w : world) (win : list bioData)
    : G * world * list bioData :=
  match k with
  | O => (g, w, win)
  | S k' =>
      let r := loop e g w in
      run_window loop reports e k' (globals_of r) (world_of r)
        (if reports e g w then [] else win ++ [sensor e (reads w)])
  end.

(** v4 reports when the interval has elapsed at the iteration's first
    reading of the clock. *)
Definition V4_reports (e : env) (g : V4.globals) (w : world) : bool :=
  V4.due (clock e (ticks w)) (V4.lastReportTime g).

Definition V4_windowed (e : env) (k : nat) : V4.globals * world * list bioData :=
  let r := V4.setup e V4.globals0 world0 in
  run_window V4.loop V4_reports e k (globals_of r) (world_of r) [].

(** v3 reports when the interval has elapsed and, the fetched reading
    stored, at least one reading is held. *)
Definition V3_reports (e : env) (g : V3.globals) (w : world) : bool :=
  V3.due (clock e (ticks w)) (V3.store (int_bits e) (V3.set_body (sensor e (reads w)) g)).

Definition V3_windowed (e : env) (k : nat) : V3.globals * world * list bioData :=
  let r := V3.setup e V3.globals0 world0 in
  run_window V3.loop V3_reports e k (globals_of r) (world_of r) [].

(** The globals of v2 once the iteration's reading is fetched and, if
    valid, accumulated (lines 149-158). *)
Definition V2_fetched (e : env) (g : V2.globals) (w : world) : V2.globals :=
  let b := sensor e (reads w) in
  if V2.valid b then V2.accumulate (V2.set_body b g) else V2.set_body b g.

(** v2 reports when the interval has elapsed or, the fetched reading
    accumulated, five readings are held. *)
Definition V2_reports (e : env) (g : V2.globals) (w : world) : bool :=
  V2.due (clock e (ticks w)) (V2_fetched e g w).

Definition V2_windowed (e : env) (k : nat) : V2.globals * world * list bioData :=
  let r := V2.setup e V2.globals0 world0 in
  run_window V2.loop V2_reports e k (globals_of r) (world_of r) [].

(** ** Further notions: invariants, observations of the serial output,
      sample environments *)

(** Nothing in [R] exceeds anything in [B]. *)
Definition dominates (B R : list Z) : Prop :=
  forall x y, x ∈ B -> y ∈ R -> y <= x.

(** The confidences of the readings of a window that pass the threshold. *)
Definition accepted (win : list bioData) : list Z :=
  confidence <$> filter confident win.

(** The invariant of the buffer of v4 over a window: every slot is empty
    or holds a confident reading of the window, and the confidences held,
    with some rest [R] that they dominate, make up the confident readings
    of the window and the five zeroes of the empty buffer. *)
Definition V4_inv (arr win : list bioData) : Prop :=
  length arr = 5%nat /\
  Forall (fun s => confidence s = 0 \/ (50 < confidence s /\ s ∈ win)) arr /\
  exists R, accepted win ++ replicate 5 0 ≡ₚ (confidence <$> arr) ++ R
            /\ dominates (confidence <$> arr) R.

(** One pass of the bubble sort, on the list itself. *)
Fixpoint bubble (a : V3.Reading) (l : list V3.Reading) : list V3.Reading :=
  match l with
  | [] => [a]
  | b :: l' =>
      if V3.confidence a <? V3.confidence b then b :: bubble a l' else a :: bubble b l'
  end.

(** The order the sort of v3 establishes. *)
Definition conf_ge (a b : V3.Reading) : Prop := V3.confidence b <= V3.confidence a.

(** The invariant of v3 over a window: the stored entries are the first
    hundred confident readings of the window, in order of arrival. *)
Definition V3_inv (bits : Z) (g : V3.globals) (win : list bioData) : Prop :=
  length (V3.readings g) = 100%nat /\
  V3.readingCount g = length (take 100 (filter confident win)) /\
  take (V3.readingCount g) (V3.readings g)
  = V3.of_bio bits <$> take 100 (filter confident win).

(** The invariant of v2 over a window: count and sums are those of the
    valid readings of the window, fewer than five. *)
Definition V2_inv (g : V2.globals) (win : list bioData) : Prop :=
  let vs := filter (fun b => V2.valid b) win in
  (V2.validReadingsCount g < 5)%nat /\
  V2.validReadingsCount g = length vs /\
  V2.heartRateSum g = float_sum (heartRate <$> vs) /\
  V2.oxygenSum g = float_sum (oxygen <$> vs) /\
  V2.irLedSum g = float_sum (irLed <$> vs) /\
  V2.redLedSum g = float_sum (redLed <$> vs).

(** The averaging state of v2 at the start of a window. *)
Definition V2_empty (g : V2.globals) : Prop :=
  V2.validReadingsCount g = 0%nat /\ V2.heartRateSum g = float_zero
  /\ V2.oxygenSum g = float_zero /\ V2.irLedSum g = float_zero
  /\ V2.redLedSum g = float_zero.


(** Kinds of events. *)
Definition is_print (ev : event) : bool :=
  match ev with Print _ | Println _ => true | _ => false end.

Definition is_call (ev : event) : bool :=
  match ev with Call _ _ => true | _ => false end.


(** Equality of driver calls. *)
Definition same_call (c d : driver_call) : bool :=
  match c, d with
  | Begin, Begin | ConfigSensorBpm, ConfigSensorBpm
  | ReadPulseWidth, ReadPulseWidth | ReadSampleRate, ReadSampleRate => true
  | SetPulseWidth a, SetPulseWidth b | SetSampleRate a, SetSampleRate b => a =? b
  | _, _ => false
  end.

(** The prints at the head of [evs], up to the first event that is not a
    print. *)
Fixpoint take_prints (evs : list event) : list event :=
  match evs with
  | (Print _ | Println _) as ev :: rest => ev :: take_prints rest
  | _ => []
  end.

(** The prints that directly follow the first call of [c]. *)
Fixpoint prints_after (c : driver_call) (evs : list event) : list event :=
  match evs with
  | [] => []
  | Call d _ :: rest => if same_call c d then take_prints rest else prints_after c rest
  | _ :: rest => prints_after c rest
  end.

(** The same environment with another stream of sensor records. *)
Definition set_sensor (s : nat -> bioData) (e : env) : env :=
  mkEnv (int_bits e) (begin_code e) (config_code e) (pulse_code e) (pulse_val e)
        (rate_code e) (rate_val e) s (clock e).

(** What [setup] owes for its driver calls: all six are made, in order,
    whatever they answer; a non-zero code of configSensorBpm,
    setPulseWidth or setSampleRate is printed after its message; a
    non-zero code of begin prints nothing. *)
Definition setup_reports_codes {G} (setup : prog G unit) (g : G) (e : env) : Prop :=
  let evs := trace (world_of (setup e g world0)) in
  filter (fun ev => is_call ev) evs =
    [Call Begin (begin_code e); Call ConfigSensorBpm (config_code e);
     Call (SetPulseWidth 411) (pulse_code e); Call ReadPulseWidth (pulse_val e);
     Call (SetSampleRate 400) (rate_code e); Call ReadSampleRate (rate_val e)] /\
  (config_code e <> 0 ->
   prints_after ConfigSensorBpm evs =
     [Println (VStr "Error configuring sensor."); Print (VStr "Error: ");
      Println (VInt (config_code e))]) /\
  (pulse_code e <> 0 ->
   prints_after (SetPulseWidth 411) evs =
     [Println (VStr "Could not set Pulse Width."); Print (VStr "Error: ");
      Println (VInt (pulse_code e))]) /\
  (rate_code e <> 0 ->
   prints_after (SetSampleRate 400) evs =
     [Println (VStr "Could not set Sample Rate!"); Print (VStr "Error: ");
      Println (VInt (rate_code e))]) /\
  (begin_code e <> 0 ->
   prints_after Begin evs = [Println (VStr "Configuring Sensor....")]).

(** A slot of [topReadings] as the reset loop of v4 leaves it. *)
Definition cleared (s : bioData) : Prop :=
  confidence s = 0 /\ heartRate s = 0 /\ oxygen s = 0.

(** At least the reporting interval lies between the clock values [last]
    and [now], as the sketches measure it. *)
Definition interval_elapsed (now last : Z) : Prop := 1000 <= ulong_sub now last.

(** A sensor record of confidence [c], heart rate [hr], oxygen [ox] and
    LED counts [ir] and [red]. *)
Definition sample (c hr ox ir red : Z) : bioData := mkBio ir red hr c ox 0.

(** A hundred readings of confidence 60, then readings of confidence 200,
    one iteration every ten milliseconds (the [delay(10)] of v3). *)
Definition env_full : env :=
  mkEnv 32 0 0 0 411 0 400
    (fun k => if (k <? 100)%nat then sample 60 70 98 1000 1000 else sample 200 70 98 1000 1000)
    (fun k => 5000 + 10 * Z.of_nat (k - 1)).

(** The same readings, one iteration every millisecond. *)
Definition env_fast : env :=
  mkEnv 32 0 0 0 411 0 400 (sensor env_full) (fun k => 5000 + Z.of_nat k).

(** Valid readings, one iteration every hundred milliseconds (the
    [delay(100)] of v2). *)
Definition env_five : env :=
  mkEnv 32 0 0 0 411 0 400
    (fun k => sample 60 (70 + Z.of_nat k) 98 1000 1000)
    (fun k => 5000 + 100 * Z.of_nat k).

(** Two confident readings with odd total of IR counts; the second
    iteration comes a second after the first. *)
Definition env_two : env :=
  mkEnv 32 0 0 0 411 0 400
    (fun k => match k with O => sample 60 70 98 100001 100001 | _ => sample 70 71 97 100002 100003 end)
    (fun k => match k with O => 5000 | 1%nat => 5010 | _ => 6010 end).

(** Readings of low confidence, two seconds apart. *)
Definition env_quiet : env :=
  mkEnv 32 0 0 0 411 0 400 (fun _ => sample 10 70 98 1000 1000)
    (fun k => 5000 + 2000 * Z.of_nat k).

(** Confident readings without a heart rate. *)
Definition env_no_pulse : env :=
  mkEnv 32 0 0 0 411 0 400 (fun _ => sample 60 0 98 1000 1000)
    (fun k => 5000 + 100 * Z.of_nat k).

(** Valid readings whose LED counts are not single-precision floats, at
    the pace of [env_five]. *)
Definition env_bright : env :=
  mkEnv 32 0 0 0 411 0 400
    (fun _ => sample 60 70 98 16777217 16777217)
    (fun k => 5000 + 100 * Z.of_nat k).

(** A board with 16-bit [int], and confident readings whose LED counts do
    not fit it, a second apart. *)
Definition env_avr : env :=
  mkEnv 16 0 0 0 411 0 400
    (fun _ => sample 60 70 98 100000 100000)
    (fun k => 5000 + 1000 * Z.of_nat k).

(** Every driver call of [setup] fails. *)
Definition env_failing : env :=
  mkEnv 32 255 3 4 411 5 400 (fun _ => sample 60 70 98 1000 1000)
    (fun k => 5000 + 100 * Z.of_nat k).

(** Does the event print the integer [z]? *)
Definition prints_int (z : Z) (ev : event) : bool :=
  match ev with
  | Print (VInt y) | Println (VInt y) => y =? z
  | _ => false
  end.

(** A full buffer of v4, and a buffer with three populated slots. *)
Definition g4_full : V4.globals :=
  V4.mkGlobals 411 400 bio_zero
    [sample 60 70 98 1 1; sample 70 71 98 1 1; sample 80 72 97 1 1;
     sample 90 73 97 1 1; sample 99 75 96 1 1] 0.

Definition g4_three : V4.globals :=
  V4.mkGlobals 411 400 bio_zero
    [sample 60 70 98 1 1; bio_zero; sample 80 72 97 1 1;
     bio_zero; sample 99 75 96 1 1] 0.

(** Readings for the properties of the sort, and another order of
    arrival. *)

(** Readings of confidence [c]. *)
Definition has_confidence (c : Z) (r : V3.Reading) : Prop := V3.confidence r = c.
#[global] Instance has_confidence_dec c r : Decision (has_confidence c r) := Z.eq_dec _ _.

(** Four stored readings, two of them of equal confidence. *)
Definition arr_ties : list V3.Reading :=
  [V3.mkReading 71 60 98 1 1 0; V3.mkReading 72 80 98 2 2 0;
   V3.mkReading 73 60 97 3 3 0; V3.mkReading 74 10 97 4 4 0].

(** [env_five] with the second and third sensor records exchanged. *)
Definition env_five_swapped : env :=
  set_sensor (fun k => sensor env_five (3 - k)) env_five.

(** * Proofs *)

(** ** v4: the search for the minimum slot *)

Lemma min_scan_spec (arr : list bioData) k m i :
  (m < i)%nat ->
  (forall j, (j < i)%nat -> confidence (arr !!! m) <= confidence (arr !!! j)) ->
  let m' := V4.min_scan arr m i k in
  (m' < i + k)%nat /\
  (forall j, (j < i + k)%nat -> confidence (arr !!! m') <= confidence (arr !!! j)).
Proof.
  revert m i. induction k as [|k IH]; intros m i Hm Hmin; simpl.
  - split; [lia|]. intros j Hj. apply Hmin. lia.
  - destruct (Z.ltb_spec (confidence (arr !!! i)) (confidence (arr !!! m))) as [Hlt|Hge].
    + destruct (IH i (S i)) as [H1 H2]; [lia| |].
      * intros j Hj. destruct (decide (j = i)) as [->|Hne]; [lia|].
        specialize (Hmin j). lia.
      * split; [lia|]. intros j Hj. apply H2. lia.
    + destruct (IH m (S i)) as [H1 H2]; [lia| |].
      * intros j Hj. destruct (decide (j = i)) as [->|Hne]; [lia|].
        apply Hmin. lia.
      * split; [lia|]. intros j Hj. apply H2. lia.
Qed.

Lemma minConfidenceIndex_spec (arr : list bioData) :
  let m := V4.minConfidenceIndex arr in
  (m < 5)%nat /\
  (forall j, (j < 5)%nat -> confidence (arr !!! m) <= confidence (arr !!! j)).
Proof.
  unfold V4.minConfidenceIndex.
  apply (min_scan_spec arr 4 0 1); [lia|].
  intros j Hj. assert (j = 0%nat) as -> by lia. lia.
Qed.

(** ** Descending sorts and the [k] highest values *)

Lemma sort_desc_perm l : sort_desc l ≡ₚ l.
Proof. apply merge_sort_Permutation. Qed.

Lemma sort_desc_sorted l : StronglySorted desc (sort_desc l).
Proof. apply StronglySorted_merge_sort; apply _. Qed.

Lemma sort_desc_length l : length (sort_desc l) = length l.
Proof. apply Permutation_length, sort_desc_perm. Qed.

Lemma sort_desc_split (B R all : list Z) :
  all ≡ₚ B ++ R -> dominates B R ->
  sort_desc all = sort_desc B ++ sort_desc R.
Proof.
  intros Hp Hd. apply (StronglySorted_unique desc).
  - apply sort_desc_sorted.
  - apply StronglySorted_app_2; [|apply sort_desc_sorted..].
    intros x y Hx Hy. apply Hd.
    + by rewrite <- (sort_desc_perm B).
    + by rewrite <- (sort_desc_perm R).
  - by rewrite !sort_desc_perm.
Qed.

Lemma top_k_split (B R all : list Z) :
  all ≡ₚ B ++ R -> dominates B R ->
  top_k (length B) all = sort_desc B.
Proof.
  intros Hp Hd. unfold top_k. rewrite (sort_desc_split B R all Hp Hd).
  apply take_app_length'. by rewrite sort_desc_length.
Qed.

Lemma top_k_all k l : (length l <= k)%nat -> top_k k l = sort_desc l.
Proof. intros H. apply take_ge. by rewrite sort_desc_length. Qed.

Lemma insert_perm (C : list Z) m c old :
  C !! m = Some old -> c :: C ≡ₚ <[m:=c]> C ++ [old].
Proof.
  intros H. pose proof (lookup_lt_Some _ _ _ H) as Hlt.
  rewrite insert_take_drop by done.
  rewrite <- (take_drop_middle C m old H) at 1.
  rewrite <- !app_assoc. simpl.
  rewrite <- (Permutation_middle (take m C) _ c).
  apply perm_skip, Permutation_app_head, Permutation_cons_append.
Qed.

Lemma elem_of_insert_inv (C : list Z) m c x :
  x ∈ <[m:=c]> C -> x = c \/ x ∈ C.
Proof.
  intros H. apply list_elem_of_lookup in H as [i Hi].
  destruct (decide (m = i)) as [->|Hne].
  - destruct (decide (i < length C)%nat).
    + rewrite list_lookup_insert_eq in Hi by done. left. congruence.
    + rewrite list_insert_ge in Hi by lia. right. by eapply list_elem_of_lookup_2.
  - rewrite list_lookup_insert_ne in Hi by done. right. by eapply list_elem_of_lookup_2.
Qed.

(** ** v4: the buffer invariant

    The confidences held in [topReadings], together with the values that
    were turned away or pushed out, are the confident readings of the
    window padded with the five zeroes of an empty buffer, and nothing
    turned away exceeds anything held. *)

Lemma accepted_snoc win b :
  accepted (win ++ [b]) =
  accepted win ++ (if decide (confident b) then [confidence b] else []).
Proof.
  unfold accepted. rewrite filter_app, fmap_app. f_equal.
  rewrite filter_singleton by exact []. by destruct (decide (confident b)).
Qed.

Lemma V4_inv_reset arr : length arr = 5%nat -> V4_inv (V4.clear_slot <$> arr) [].
Proof.
  intros H. split; [by rewrite length_fmap|]. split.
  - apply Forall_fmap, Forall_true. intros s. by left.
  - exists []. do 6 (destruct arr as [|? arr]; try discriminate).
    split; [done|]. intros x y _ Hy. inv Hy.
Qed.

Lemma V4_inv_step arr win b :
  V4_inv arr win -> V4_inv (V4.keep_best arr b) (win ++ [b]).
Proof.
  intros (Hlen & Hall & R & Hperm & Hdom).
  assert (Hall' : Forall (fun s => confidence s = 0 \/ (50 < confidence s /\ s ∈ win ++ [b])) arr).
  { eapply Forall_impl; [exact Hall|]. intros s [?|[? ?]]; [by left|right].
    split; [done|]. apply elem_of_app. by left. }
  unfold V4_inv, V4.keep_best. rewrite accepted_snoc.
  destruct (Z.ltb_spec 50 (confidence b)) as [Hb|Hb].
  2:{ rewrite decide_False by (unfold confident; lia).
      split; [done|]. split; [done|]. exists R. by rewrite app_nil_r. }
  rewrite decide_True by done.
  destruct (minConfidenceIndex_spec arr) as [Hm Hmin].
  set (m := V4.minConfidenceIndex arr) in *.
  set (c := confidence b) in *. set (old := confidence (arr !!! m)) in *.
  assert (Hlook : (confidence <$> arr) !! m = Some old).
  { rewrite list_lookup_fmap, list_lookup_lookup_total_lt by lia. done. }
  assert (Hle : forall x, x ∈ confidence <$> arr -> old <= x).
  { intros x Hx. apply list_elem_of_fmap in Hx as (s & -> & Hs).
    apply list_elem_of_lookup in Hs as [j Hj].
    pose proof (lookup_lt_Some _ _ _ Hj).
    apply list_lookup_total_correct in Hj as <-. apply Hmin. lia. }
  assert (Hc : (accepted win ++ [c]) ++ replicate 5 0
               ≡ₚ c :: (confidence <$> arr) ++ R).
  { rewrite <- Hperm, <- app_assoc. simpl. symmetry. apply Permutation_middle. }
  destruct (Z.ltb_spec old c) as [Hlt|Hge].
  - split; [by rewrite length_insert|]. split.
    + apply Forall_insert; [done|]. right. split; [done|].
      apply elem_of_app. right. by apply list_elem_of_singleton.
    + exists (old :: R). rewrite list_fmap_insert. split.
      * rewrite Hc. change (c :: (confidence <$> arr) ++ R) with ((c :: (confidence <$> arr)) ++ R).
        rewrite (insert_perm _ m c old Hlook). by rewrite <- app_assoc.
      * intros x y Hx Hy. apply elem_of_insert_inv in Hx.
        apply elem_of_cons in Hy as [->|Hy].
        -- destruct Hx as [->|Hx]; [lia|by apply Hle].
        -- destruct Hx as [->|Hx]; [|by apply Hdom].
           assert (Hold : old ∈ confidence <$> arr) by (by eapply list_elem_of_lookup_2).
           specialize (Hdom old y Hold Hy). lia.
  - split; [done|]. split; [done|]. exists (c :: R). split.
    + rewrite Hc. apply Permutation_middle.
    + intros x y Hx Hy. apply elem_of_cons in Hy as [->|Hy]; [|by apply Hdom].
      specialize (Hle x Hx). lia.
Qed.

Lemma fmap_filter_populated (arr : list bioData) :
  confidence <$> filter populated arr = filter (fun c => 0 < c) (confidence <$> arr).
Proof.
  induction arr as [|s arr IH]; [done|]. rewrite fmap_cons, !filter_cons.
  unfold populated at 1.
  destruct (decide (0 < confidence s)); rewrite ?fmap_cons; by rewrite IH.
Qed.

Lemma filter_all_or_not {A} (P : A -> Prop) `{!forall x, Decision (P x)} (l : list A) :
  filter P l = l \/ exists x, x ∈ l /\ ~ P x.
Proof.
  induction l as [|a l IH]; [by left|]. rewrite filter_cons.
  destruct (decide (P a)) as [Ha|Ha].
  - destruct IH as [->|(x & ? & ?)]; [by left|right]. exists x. split; [by right|done].
  - right. exists a. split; [by left|done].
Qed.

Lemma accepted_positive win : filter (fun c => 0 < c) (accepted win) = accepted win.
Proof.
  unfold accepted. induction win as [|b win IH]; [done|].
  rewrite filter_cons. destruct (decide (confident b)) as [Hb|Hb]; [|done].
  rewrite fmap_cons, filter_cons_True by (unfold confident in Hb; lia). by rewrite IH.
Qed.

Lemma V4_inv_top arr win :
  V4_inv arr win ->
  sort_desc (confidence <$> filter populated arr) = top_k 5 (accepted win).
Proof.
  intros (Hlen & Hall & R & Hperm & Hdom).
  rewrite fmap_filter_populated.
  set (pos := fun c : Z => 0 < c). set (C := confidence <$> arr) in *.
  assert (HA : accepted win ≡ₚ filter pos C ++ filter pos R).
  { rewrite <- filter_app, <- Hperm, filter_app, accepted_positive.
    by rewrite app_nil_r. }
  assert (HD : dominates (filter pos C) (filter pos R)).
  { intros x y Hx%list_elem_of_filter Hy%list_elem_of_filter. apply Hdom; tauto. }
  pose proof (top_k_split _ _ _ HA HD) as Htop.
  destruct (filter_all_or_not pos C) as [Hfull|(x & Hx & Hnpos)].
  - rewrite Hfull in *. subst C. rewrite length_fmap, Hlen in Htop. done.
  - assert (Hx0 : x = 0).
    { subst C. apply list_elem_of_fmap in Hx as (s & -> & Hs).
      rewrite Forall_forall in Hall. destruct (Hall s Hs) as [?|[? _]]; [done|].
      unfold pos in Hnpos. lia. }
    subst x. assert (HR : filter pos R = []).
    { destruct (filter pos R) as [|y R'] eqn:E; [done|].
      assert (Hy : y ∈ filter pos R) by (rewrite E; by left).
      apply list_elem_of_filter in Hy as [Hy1 Hy2].
      specialize (Hdom 0 y Hx Hy2). unfold pos in Hy1. lia. }
    rewrite HR, app_nil_r in HA.
    rewrite top_k_all.
    + apply (StronglySorted_unique desc); [apply sort_desc_sorted..|].
      by rewrite !sort_desc_perm.
    + rewrite (Permutation_length HA).
      etrans; [apply length_filter|]. subst C. rewrite length_fmap. lia.
Qed.

(** ** Runs of [loop]

    The windowed run goes through the very states of [iterate]. *)

Lemma run_window_iterate {G} (loop : prog G unit) reports e k : forall g w win,
  fst (run_window loop reports e k g w win) =
  (globals_of (iterate k loop e g w), world_of (iterate k loop e g w)).
Proof.
  induction k as [|k IH]; intros g w win; [done|].
  cbn [run_window iterate]. unfold bind. rewrite IH.
  by destruct (loop e g w) as [[u g1] w1].
Qed.

(** ** v4: running [loop] and [setup] *)

Lemma reset_top_run e g w :
  length (V4.topReadings g) = 5%nat ->
  V4.reset_top e g w = (tt, V4.set_topReadings (V4.clear_slot <$> V4.topReadings g) g, w).
Proof.
  intros H. destruct g as [a b c t l]. simpl in H.
  do 6 (destruct t as [|? t]; try discriminate).
  reflexivity.
Qed.

Lemma keep_best_length arr b : length (V4.keep_best arr b) = length arr.
Proof.
  unfold V4.keep_best. repeat case_match; rewrite ?length_insert; done.
Qed.

Ltac run_prog :=
  repeat (progress (cbn [bind ret get put modify out print println delay driver
                        readSensorBpm millis int_width when emit
                        globals_of world_of value_of fst snd reads ticks trace]
                    || unfold bind, ret, get, put, modify, out, print, println, delay, driver,
                        readSensorBpm, millis, int_width, when)).

Lemma V4_report_globals e g w :
  length (V4.topReadings g) = 5%nat ->
  globals_of (V4.report e g w) =
    V4.set_topReadings (V4.clear_slot <$> V4.topReadings g)
      (V4.set_lastReportTime (clock e (ticks w)) g).
Proof.
  intros H. unfold V4.report. run_prog.
  destruct (V4.totals _) as [[hr ox] n]. 
  destruct (Nat.eqb n V4.NUM_READINGS); run_prog; rewrite reset_top_run by done; reflexivity.
Qed.

Lemma V4_loop_globals e g w :
  length (V4.topReadings g) = 5%nat ->
  let b := sensor e (reads w) in
  let g1 := V4.set_topReadings (V4.keep_best (V4.topReadings g) b) (V4.set_body b g) in
  globals_of (V4.loop e g w) =
    if V4_reports e g w
    then V4.set_topReadings (V4.clear_slot <$> V4.topReadings g1)
           (V4.set_lastReportTime (clock e (S (ticks w))) g1)
    else g1.
Proof.
  intros H b g1. unfold V4.loop, V4_reports. run_prog.
  fold b. cbn [V4.lastReportTime V4.set_topReadings V4.set_body].
  destruct (V4.due _ _); [|reflexivity].
  fold g1.
  match goal with |- context [V4.report e ?g ?w] =>
    pose proof (V4_report_globals e g w) as Hr end.
  destruct (V4.report _ _ _) as [[u g'] w']. cbn in Hr |- *. rewrite Hr; [reflexivity|].
  subst g1. cbn. by rewrite keep_best_length.
Qed.

Lemma V4_setup_globals e g w :
  length (V4.topReadings g) = 5%nat ->
  globals_of (V4.setup e g w) =
    V4.set_topReadings (V4.clear_slot <$> V4.topReadings g)
      (V4.set_sampleVal (rate_val e) (V4.set_pulseWidthVal (pulse_val e) g)).
Proof.
  intros H. unfold V4.setup. run_prog.
  destruct (begin_code e =? 0), (config_code e =? 0), (pulse_code e =? 0), (rate_code e =? 0);
    run_prog; rewrite reset_top_run by done; reflexivity.
Qed.

Lemma V4_run_window_inv e k : forall g w win,
  V4_inv (V4.topReadings g) win ->
  let '(g', _, win') := run_window V4.loop V4_reports e k g w win in
  V4_inv (V4.topReadings g') win'.
Proof.
  induction k as [|k IH]; intros g w win Hinv; [done|].
  cbn [run_window]. apply IH.
  pose proof Hinv as (Hlen & _).
  rewrite V4_loop_globals by done.
  destruct (V4_reports e g w); cbn [V4.topReadings V4.set_topReadings].
  - apply V4_inv_reset. by rewrite keep_best_length.
  - by apply V4_inv_step.
Qed.

Lemma V4_windowed_inv e k :
  let '(g, _, win) := V4_windowed e k in V4_inv (V4.topReadings g) win.
Proof.
  unfold V4_windowed. apply V4_run_window_inv.
  rewrite (V4_setup_globals e V4.globals0 world0 eq_refl).
  by apply V4_inv_reset.
Qed.

(** ** v3: the bubble sort *)

Lemma swap_if_less_app pre a b post :
  V3.swap_if_less (pre ++ a :: b :: post) (length pre) =
  pre ++ (if V3.confidence a <? V3.confidence b then b :: a :: post else a :: b :: post).
Proof.
  unfold V3.swap_if_less.
  rewrite (list_lookup_total_middle pre (b :: post) a) by done.
  rewrite (lookup_total_app_r pre) by lia.
  replace (S (length pre) - length pre)%nat with 1%nat by lia.
  cbn [lookup_total list_lookup_total].
  destruct (V3.confidence a <? V3.confidence b); [|done].
  replace (length pre) with (length pre + 0)%nat at 2 by lia.
  rewrite insert_app_r. simpl.
  replace (S (length pre)) with (length pre + 1)%nat by lia.
  by rewrite insert_app_r.
Qed.

Lemma bubble_pass_app mid : forall pre a post,
  V3.bubble_pass (pre ++ a :: mid ++ post) (length pre) (length mid) =
  pre ++ bubble a mid ++ post.
Proof.
  induction mid as [|b mid IH]; intros pre a post; [done|].
  cbn [length V3.bubble_pass bubble app].
  rewrite swap_if_less_app.
  destruct (V3.confidence a <? V3.confidence b).
  - replace (pre ++ b :: a :: mid ++ post) with ((pre ++ [b]) ++ a :: mid ++ post)
      by (by rewrite <- app_assoc).
    replace (S (length pre)) with (length (pre ++ [b])) by (rewrite length_app; simpl; lia).
    rewrite IH. by rewrite <- app_assoc.
  - replace (pre ++ a :: b :: mid ++ post) with ((pre ++ [a]) ++ b :: mid ++ post)
      by (by rewrite <- app_assoc).
    replace (S (length pre)) with (length (pre ++ [a])) by (rewrite length_app; simpl; lia).
    rewrite IH. by rewrite <- app_assoc.
Qed.

Lemma bubble_perm l : forall a, bubble a l ≡ₚ a :: l.
Proof.
  induction l as [|b l IH]; intros a; [done|]. simpl.
  destruct (V3.confidence a <? V3.confidence b); rewrite IH; [apply perm_swap|done].
Qed.

Lemma bubble_last l : forall a,
  exists init last, bubble a l = init ++ [last] /\
    forall x, x ∈ a :: l -> conf_ge x last.
Proof.
  induction l as [|b l IH]; intros a; simpl.
  - exists [], a. split; [done|]. intros x ->%list_elem_of_singleton. unfold conf_ge. lia.
  - destruct (Z.ltb_spec (V3.confidence a) (V3.confidence b)) as [Hlt|Hge].
    + destruct (IH a) as (init & last & Heq & Hdom).
      exists (b :: init), last. split; [by rewrite Heq|].
      assert (Ha := Hdom a ltac:(by left)). unfold conf_ge in *.
      intros x [->|[->|Hx]%elem_of_cons]%elem_of_cons; [done|lia|].
      apply Hdom. by right.
    + destruct (IH b) as (init & last & Heq & Hdom).
      exists (a :: init), last. split; [by rewrite Heq|].
      assert (Hb := Hdom b ltac:(by left)). unfold conf_ge in *.
      intros x [->|Hx]%elem_of_cons; [lia|by apply Hdom].
Qed.

Lemma sort_passes_spec k : forall front tail post,
  length front = S k ->
  StronglySorted conf_ge tail ->
  (forall x y, x ∈ front -> y ∈ tail -> conf_ge x y) ->
  exists l', V3.sort_passes (front ++ tail ++ post) (length front + length tail)
               (length tail) k = l' ++ post
             /\ l' ≡ₚ front ++ tail /\ StronglySorted conf_ge l'.
Proof.
  induction k as [|k IH]; intros front tail post Hlen Hs Hdom.
  - destruct front as [|x [|? ?]]; try discriminate. cbn [V3.sort_passes].
    exists ([x] ++ tail). split; [by rewrite <- app_assoc|]. split; [done|].
    simpl. constructor; [done|]. apply Forall_forall. intros y Hy. apply Hdom; [by left|done].
  - destruct front as [|a mid]; [discriminate|]. cbn [V3.sort_passes].
    assert (Hmid : length mid = S k) by (simpl in Hlen; lia).
    replace (length (a :: mid) + length tail - length tail - 1)%nat with (length mid)
      by (simpl; lia).
    pose proof (bubble_pass_app mid [] a (tail ++ post)) as Hpass. cbn [app length] in Hpass.
    cbn [app]. rewrite Hpass.
    destruct (bubble_last mid a) as (init & last & Heq & Hmin).
    assert (Hperm : init ++ [last] ≡ₚ a :: mid) by (rewrite <- Heq; apply bubble_perm).
    assert (Hinit : length init = S k).
    { apply Permutation_length in Hperm. rewrite length_app in Hperm. simpl in Hperm. lia. }
    destruct (IH init (last :: tail) post Hinit) as (l' & Hl' & Hp' & Hs').
    + constructor; [done|]. apply Forall_forall. intros y Hy. apply Hdom; [|done].
      rewrite <- Hperm. apply elem_of_app. right. by left.
    + intros x y Hx [->|Hy]%elem_of_cons.
      * apply Hmin. rewrite <- Hperm. apply elem_of_app. by left.
      * apply Hdom; [|done]. rewrite <- Hperm. apply elem_of_app. by left.
    + exists l'. split; [|split; [|done]].
      * rewrite <- Hl', Heq, <- !app_assoc. simpl.
        f_equal. rewrite Hinit. simpl. lia.
      * rewrite Hp'. change (a :: mid ++ tail) with ((a :: mid) ++ tail).
        by rewrite <- Hperm, <- app_assoc.
Qed.

Lemma sortReadingsByConfidence_spec arr n :
  (n <= length arr)%nat ->
  exists l', V3.sortReadingsByConfidence arr n = l' ++ drop n arr
             /\ l' ≡ₚ take n arr /\ StronglySorted conf_ge l'.
Proof.
  intros Hn. unfold V3.sortReadingsByConfidence. destruct n as [|k].
  - exists []. rewrite drop_0. repeat split; constructor.
  - assert (Hlen : length (take (S k) arr) = S k) by (rewrite length_take; lia).
    destruct (sort_passes_spec k (take (S k) arr) [] (drop (S k) arr) Hlen)
      as (l' & Heq & Hperm & Hs).
    + constructor.
    + intros x y _ Hy. inv Hy.
    + exists l'. rewrite app_nil_r in Hperm. split; [|done].
      rewrite <- Heq. cbn [app length]. rewrite Hlen, take_drop.
      by replace (S k + 0)%nat with (S k) by lia; replace (S k - 1)%nat with k by lia.
Qed.

Lemma sortReadingsByConfidence_length arr n :
  (n <= length arr)%nat -> length (V3.sortReadingsByConfidence arr n) = length arr.
Proof.
  intros Hn. destruct (sortReadingsByConfidence_spec arr n Hn) as (l' & -> & Hp & _).
  rewrite length_app, (Permutation_length Hp), length_take, length_drop. lia.
Qed.

(** After the sort, the confidences of the first [k] entries are the [k]
    highest of the [n] stored ones. *)
Lemma sortReadingsByConfidence_top arr n k :
  (n <= length arr)%nat -> (k <= n)%nat ->
  V3.confidence <$> take k (V3.sortReadingsByConfidence arr n) =
  top_k k (V3.confidence <$> take n arr).
Proof.
  intros Hn Hk. destruct (sortReadingsByConfidence_spec arr n Hn) as (l' & -> & Hp & Hs).
  assert (Hl' : length l' = n) by (rewrite (Permutation_length Hp), length_take; lia).
  rewrite take_app_le by lia. rewrite fmap_take. unfold top_k. f_equal.
  apply (StronglySorted_unique desc).
  - apply (StronglySorted_fmap _ conf_ge desc); [|done]. intros a b H. exact H.
  - apply sort_desc_sorted.
  - by rewrite sort_desc_perm, Hp.
Qed.

(** ** v3: the stored readings and the runs of [loop] *)

Lemma V3_inv_store bits g win b :
  V3_inv bits g win -> V3_inv bits (V3.store bits (V3.set_body b g)) (win ++ [b]).
Proof.
  intros (Hlen & Hcnt & Htake). unfold V3_inv, V3.store.
  cbn [V3.body V3.set_body V3.readingCount V3.readings].
  rewrite filter_app, filter_singleton by exact [].
  set (F := filter confident win) in *.
  assert (HF : length (take 100 F) = Nat.min 100 (length F)) by apply length_take.
  destruct (Z.ltb_spec 50 (Hw.confidence b)) as [Hb|Hb].
  2:{ rewrite decide_False by (unfold confident; lia). by rewrite app_nil_r. }
  rewrite decide_True by done. cbn [andb].
  destruct (Nat.ltb_spec (V3.readingCount g) V3.MAX_READINGS) as [Hlt|Hge];
    unfold V3.MAX_READINGS in *.
  - cbn [V3.readingCount V3.readings V3.set_readingCount V3.set_readings].
    assert (HFlt : (length F < 100)%nat) by lia.
    rewrite take_ge in Hcnt, Htake by lia.
    rewrite take_ge by (rewrite length_app; simpl; lia).
    rewrite length_insert, length_app, fmap_app. simpl.
    split; [done|]. split; [lia|].
    rewrite (take_S_r _ _ (V3.of_bio bits b)) by (apply list_lookup_insert_eq; lia).
    rewrite take_insert, decide_False by lia. by rewrite Htake.
  - cbn [V3.readingCount V3.readings V3.set_body].
    rewrite take_app_le by lia. done.
Qed.

Lemma V3_loop_globals e g w :
  let g1 := V3.store (int_bits e) (V3.set_body (sensor e (reads w)) g) in
  let now := clock e (ticks w) in
  globals_of (V3.loop e g w) =
    if V3_reports e g w
    then V3.set_lastDisplayTime now
           (V3.set_readingCount 0
              (V3.set_readings
                 (V3.sortReadingsByConfidence (V3.readings g1) (V3.readingCount g1)) g1))
    else g1.
Proof.
  intros g1 now. unfold V3.loop, V3_reports. run_prog. fold g1 now.
  destruct (V3.due now g1); reflexivity.
Qed.

Lemma V3_setup_globals e g w :
  globals_of (V3.setup e g w) =
    V3.set_lastDisplayTime (clock e (ticks w))
      (V3.set_sampleVal (rate_val e) (V3.set_pulseWidthVal (pulse_val e) g)).
Proof.
  unfold V3.setup. run_prog.
  destruct (begin_code e =? 0), (config_code e =? 0), (pulse_code e =? 0), (rate_code e =? 0);
    reflexivity.
Qed.

Lemma V3_run_window_inv e k : forall g w win,
  V3_inv (int_bits e) g win ->
  let '(g', _, win') := run_window V3.loop V3_reports e k g w win in
  V3_inv (int_bits e) g' win'.
Proof.
  induction k as [|k IH]; intros g w win Hinv; [done|].
  cbn [run_window]. apply IH. rewrite V3_loop_globals.
  pose proof (V3_inv_store _ g win (sensor e (reads w)) Hinv) as (Hlen & Hcnt & Htake).
  destruct (V3_reports e g w); [|done].
  split; [|done]. cbn [V3.readings V3.set_lastDisplayTime V3.set_readingCount V3.set_readings].
  rewrite sortReadingsByConfidence_length; [done|].
  rewrite Hcnt, Hlen, length_take. lia.
Qed.

Lemma V3_windowed_inv e k :
  let '(g, _, win) := V3_windowed e k in V3_inv (int_bits e) g win.
Proof.
  unfold V3_windowed. apply V3_run_window_inv. rewrite V3_setup_globals. done.
Qed.

(** ** v2: the running sums and the runs of [loop] *)

Lemma V2_loop_globals e g w :
  let g1 := V2_fetched e g w in
  let now := clock e (ticks w) in
  globals_of (V2.loop e g w) = if V2_reports e g w then V2.reset now g1 else g1.
Proof.
  intros g1 now. unfold V2.loop, V2_reports. subst g1. unfold V2_fetched. run_prog.
  destruct (V2.valid _); run_prog; fold now;
  destruct (V2.due now _); try reflexivity.
  all: unfold V2.display; destruct (0 <? _)%nat; reflexivity.
Qed.

Lemma for_up_globals_inv {G} (P : G -> Prop) (body : nat -> prog G unit) :
  (forall i e g w, P g -> P (globals_of (body i e g w))) ->
  forall n i e g w, P g -> P (globals_of (for_up i n body e g w)).
Proof.
  intros Hbody. induction n as [|n IH]; intros i e g w Hg; [done|].
  cbn [for_up]. unfold bind. specialize (Hbody i e g w Hg).
  destruct (body i e g w) as [[u g1] w1]. by apply IH.
Qed.

Lemma V2_stabilise_empty e g w : V2_empty g -> V2_empty (globals_of (V2.stabilise e g w)).
Proof.
  apply (for_up_globals_inv V2_empty). clear. intros _ e g w H. exact H.
Qed.

Lemma V2_setup_empty e g w : V2_empty g -> V2_empty (globals_of (V2.setup e g w)).
Proof.
  intros H. unfold V2.setup. run_prog.
  destruct (begin_code e =? 0), (config_code e =? 0), (pulse_code e =? 0), (rate_code e =? 0);
    run_prog;
    match goal with |- context [V2.stabilise e ?g ?w] =>
      pose proof (V2_stabilise_empty e g w H) as Hs;
      destruct (V2.stabilise e g w) as [[u g1] w1] end; exact Hs.
Qed.

Lemma V2_empty_inv g : V2_empty g -> V2_inv g [].
Proof.
  intros (H1 & H2 & H3 & H4 & H5). unfold V2_inv. cbn.
  rewrite H1, H2, H3, H4, H5. repeat split; lia.
Qed.

Lemma sumZ_app l k : sumZ (l ++ k) = sumZ l + sumZ k.
Proof. unfold sumZ. induction l as [|a l IH]; simpl; lia. Qed.

Lemma float_sum_snoc (f : bioData -> Z) (l : list bioData) (b : bioData) :
  float_sum ((f <$> l) ++ (f <$> [b])) = float_add_Z (float_sum (f <$> l)) (f b).
Proof. unfold float_sum. by rewrite foldl_app. Qed.

Lemma V2_inv_fetch e g w win :
  V2_inv g win ->
  let g1 := V2_fetched e g w in
  let vs := filter (fun b => V2.valid b) (win ++ [sensor e (reads w)]) in
  V2.validReadingsCount g1 = length vs /\
  V2.heartRateSum g1 = float_sum (heartRate <$> vs) /\
  V2.oxygenSum g1 = float_sum (oxygen <$> vs) /\
  V2.irLedSum g1 = float_sum (irLed <$> vs) /\
  V2.redLedSum g1 = float_sum (redLed <$> vs).
Proof.
  intros (Hlt & Hcnt & Hhr & Hox & Hir & Hred). cbv zeta.
  rewrite filter_app, filter_singleton by exact []. unfold V2_fetched.
  set (b := sensor e (reads w)). destruct (V2.valid b) eqn:Hv.
  - rewrite decide_True by done. rewrite length_app, !fmap_app, !float_sum_snoc.
    cbn [V2.accumulate V2.set_body V2.validReadingsCount V2.heartRateSum V2.oxygenSum
         V2.irLedSum V2.redLedSum V2.body length].
    rewrite Hhr, Hox, Hir, Hred. repeat split; try reflexivity. lia.
  - rewrite decide_False by (by intros ?). rewrite app_nil_r. done.
Qed.

Lemma V2_run_window_inv e k : forall g w win,
  V2_inv g win ->
  let '(g', _, win') := run_window V2.loop V2_reports e k g w win in
  V2_inv g' win'.
Proof.
  induction k as [|k IH]; intros g w win Hinv; [done|].
  cbn [run_window]. apply IH. rewrite V2_loop_globals.
  pose proof (V2_inv_fetch e g w win Hinv) as Hf. cbv zeta in Hf.
  destruct (V2_reports e g w) eqn:Hr.
  - apply V2_empty_inv. by repeat split.
  - split; [|exact Hf]. unfold V2_reports, V2.due in Hr.
    apply orb_false_iff in Hr as [_ Hr]. apply Nat.leb_gt in Hr.
    unfold V2.TARGET_READINGS in Hr. exact Hr.
Qed.

Lemma V2_windowed_inv e k :
  let '(g, _, win) := V2_windowed e k in V2_inv g win.
Proof.
  unfold V2_windowed. apply V2_run_window_inv, V2_empty_inv, V2_setup_empty. by repeat split.
Qed.

(** ** Single-precision sums of small integers

    Non-negative integers whose sum stays below 2^24 are added in
    [float] without rounding. *)

Lemma iter_pos_nat {A} (f : A -> A) (n : positive) : forall x,
  SpecFloat.iter_pos f n x = Nat.iter (Pos.to_nat n) f x.
Proof.
  induction n as [n IH|n IH|]; intros x; cbn [SpecFloat.iter_pos].
  - rewrite !IH, Pos2Nat.inj_xI, <- Nat.iter_add.
    replace (S (2 * Pos.to_nat n)) with (Pos.to_nat n + Pos.to_nat n + 1)%nat by lia.
    by rewrite (Nat.iter_add _ 1).
  - rewrite !IH, Pos2Nat.inj_xO, <- Nat.iter_add. f_equal. lia.
  - reflexivity.
Qed.

Lemma pos_iter_shl (p d : positive) : Pos.iter xO p d = shl p (Pos.to_nat d).
Proof.
  rewrite Pos2Nat.inj_iter. generalize (Pos.to_nat d). intros n.
  induction n as [|n IH]; [done|]. cbn [nat_rect shl]. by rewrite IH.
Qed.

Lemma digits_shl p n : Zpos (digits2_pos (shl p n)) = Zpos (digits2_pos p) + Z.of_nat n.
Proof. induction n as [|n IH]; cbn [shl digits2_pos]; lia. Qed.

Lemma shl_Z p n : Zpos (shl p n) = Zpos p * 2 ^ Z.of_nat n.
Proof.
  induction n as [|n IH]; [cbn; lia|].
  cbn [shl]. rewrite Pos2Z.inj_xO, IH, Nat2Z.inj_succ, Z.pow_succ_r by lia. lia.
Qed.

Lemma shl_add p n m : shl (shl p n) m = shl p (n + m).
Proof.
  induction m as [|m IH]; [by rewrite Nat.add_0_r|].
  rewrite Nat.add_succ_r. cbn [shl]. by rewrite IH.
Qed.

Lemma shr_shl p n :
  Nat.iter n shr_1 (Build_shr_record (Zpos (shl p n)) false false)
  = Build_shr_record (Zpos p) false false.
Proof.
  induction n as [|n IH]; [done|].
  rewrite Nat.iter_succ_r. cbn [shl shr_1 orb]. exact IH.
Qed.

Lemma digits_bound p : Zpos p < 2 ^ Zpos (digits2_pos p).
Proof.
  induction p as [p IH|p IH|]; cbn [digits2_pos]; [| |done].
  all: rewrite Pos2Z.inj_succ, Z.pow_succ_r by lia; lia.
Qed.

Lemma digits_le p n : 0 <= n -> Zpos p < 2 ^ n -> Zpos (digits2_pos p) <= n.
Proof.
  revert n. induction p as [p IH|p IH|]; intros n Hn H; cbn [digits2_pos].
  - assert (n <> 0) by (intros ->; simpl in H; lia).
    replace n with (Z.succ (n - 1)) in H by lia. rewrite Z.pow_succ_r in H by lia.
    specialize (IH (n - 1)). lia.
  - assert (n <> 0) by (intros ->; simpl in H; lia).
    replace n with (Z.succ (n - 1)) in H by lia. rewrite Z.pow_succ_r in H by lia.
    specialize (IH (n - 1)). lia.
  - assert (n <> 0) by (intros ->; simpl in H; lia). lia.
Qed.

Lemma round_aux_shr (m : positive) (n : nat) (e : Z) :
  Zpos (digits2_pos m) = 24 -> -149 <= e <= 104 ->
  binary_round_aux 24 128 false (Zpos (shl m n)) (e - Z.of_nat n) loc_Exact
  = S754_finite false m e.
Proof.
  intros Hm He.
  assert (Hstep : shr_fexp 24 128 (Zpos (shl m n)) (e - Z.of_nat n) loc_Exact
                  = (Build_shr_record (Zpos m) false false, e)).
  { unfold shr_fexp, fexp, emin. cbn [Zdigits2 shr_record_of_loc].
    rewrite digits_shl, Hm.
    replace (Z.max (24 + Z.of_nat n + (e - Z.of_nat n) - 24) (3 - 128 - 24) - (e - Z.of_nat n))
      with (Z.of_nat n) by lia.
    destruct n as [|n].
    - change (Z.of_nat 0) with 0. cbn [shr shl]. by rewrite Z.sub_0_r.
    - change (Z.of_nat (S n)) with (Zpos (Pos.of_succ_nat n)). cbn [shr].
      rewrite iter_pos_nat, SuccNat2Pos.id_succ, shr_shl. f_equal. lia. }
  unfold binary_round_aux. rewrite Hstep.
  cbn [shr_m loc_of_shr_record round_nearest_even].
  pose proof Hstep as H0. revert H0. clear Hstep.
  intros _.
  assert (Hstep0 : shr_fexp 24 128 (Zpos m) e loc_Exact
                   = (Build_shr_record (Zpos m) false false, e)).
  { unfold shr_fexp, fexp, emin. cbn [Zdigits2 shr_record_of_loc]. rewrite Hm.
    replace (Z.max (24 + e - 24) (3 - 128 - 24) - e) with 0 by lia. reflexivity. }
  rewrite Hstep0. cbn [shr_m].
  destruct (Z.leb_spec e (128 - 24)); [done|lia].
Qed.

Lemma binary_round_shl p k :
  Zpos (digits2_pos p) <= 24 -> (k <= 24)%nat ->
  binary_round 24 128 false (shl p k) (- Z.of_nat k) = norm p.
Proof.
  intros Hd Hk. unfold binary_round, norm.
  set (d := Zpos (digits2_pos p)) in *.
  assert (Hd0 : 0 < d) by (unfold d; lia).
  rewrite digits_shl. fold d.
  replace (d + Z.of_nat k + - Z.of_nat k) with d by lia.
  unfold fexp, emin. rewrite Z.max_l by lia.
  set (j := Z.to_nat (24 - d)).
  assert (Hj : Zpos (digits2_pos (shl p j)) = 24) by (rewrite digits_shl; fold d; lia).
  unfold shl_align.
  destruct (Z.sub (d - 24) (- Z.of_nat k)) as [|n|n] eqn:En.
  - replace k with (j + 0)%nat by lia. rewrite <- shl_add.
    replace (- Z.of_nat (j + 0)) with (d - 24 - Z.of_nat 0) by lia.
    apply round_aux_shr; [done|lia].
  - replace k with (j + Pos.to_nat n)%nat by lia. rewrite <- shl_add.
    replace (- Z.of_nat (j + Pos.to_nat n)) with (d - 24 - Z.of_nat (Pos.to_nat n)) by lia.
    apply round_aux_shr; [done|lia].
  - rewrite pos_iter_shl, shl_add.
    replace (k + Pos.to_nat n)%nat with (j + 0)%nat by lia. rewrite <- shl_add.
    replace (d - 24) with (d - 24 - Z.of_nat 0) at 1 by lia.
    apply round_aux_shr; [done|lia].
Qed.

Lemma float_of_Z_pos p : Zpos p < 2 ^ 24 -> float_of_Z (Zpos p) = norm p.
Proof.
  intros Hp. unfold float_of_Z, binary_normalize.
  apply (binary_round_shl p 0); [|lia]. apply digits_le; lia.
Qed.

Lemma float_add_pos p q :
  Zpos p + Zpos q < 2 ^ 24 -> float_add (norm p) (norm q) = norm (p + q).
Proof.
  intros Hs.
  assert (Hp : Zpos (digits2_pos p) <= 24) by (apply digits_le; lia).
  assert (Hq : Zpos (digits2_pos q) <= 24) by (apply digits_le; lia).
  assert (Hpq : Zpos (digits2_pos (p + q)) <= 24) by (apply digits_le; lia).
  unfold float_add, norm, SFadd.
  set (dp := Zpos (digits2_pos p)) in *. set (dq := Zpos (digits2_pos q)) in *.
  assert (0 < dp) by (unfold dp; lia). assert (0 < dq) by (unfold dq; lia).
  set (ez := Z.min (dp - 24) (dq - 24)).
  set (k := Z.to_nat (- ez)).
  assert (Hx : fst (shl_align (shl p (Z.to_nat (24 - dp))) (dp - 24) ez) = shl p k).
  { unfold shl_align. destruct (ez - (dp - 24)) as [|n|n] eqn:En; cbn [fst].
    - f_equal. lia.
    - lia.
    - rewrite pos_iter_shl, shl_add. f_equal. lia. }
  assert (Hy : fst (shl_align (shl q (Z.to_nat (24 - dq))) (dq - 24) ez) = shl q k).
  { unfold shl_align. destruct (ez - (dq - 24)) as [|n|n] eqn:En; cbn [fst].
    - f_equal. lia.
    - lia.
    - rewrite pos_iter_shl, shl_add. f_equal. lia. }
  rewrite Hx, Hy. cbn [cond_Zopp].
  replace (Zpos (shl p k) + Zpos (shl q k)) with (Zpos (shl (p + q) k)).
  2:{ rewrite !shl_Z. lia. }
  cbn [binary_normalize]. replace ez with (- Z.of_nat k) by lia.
  apply binary_round_shl; [done|lia].
Qed.

Lemma float_add_exact (a b : Z) :
  0 <= a -> 0 <= b -> a + b < 2 ^ 24 ->
  float_add (float_of_Z a) (float_of_Z b) = float_of_Z (a + b).
Proof.
  intros Ha Hb Hs. destruct a as [|p|p]; [| |lia].
  - destruct b as [|q|q]; [done| |lia].
    rewrite Z.add_0_l, float_of_Z_pos by lia. reflexivity.
  - destruct b as [|q|q]; [| |lia].
    + rewrite Z.add_0_r, float_of_Z_pos by lia. reflexivity.
    + rewrite !float_of_Z_pos by lia. change (Zpos p + Zpos q) with (Zpos (p + q)).
      rewrite float_of_Z_pos by lia. by apply float_add_pos.
Qed.

Lemma float_sum_exact (l : list Z) :
  Forall (fun z => 0 <= z) l -> sumZ l < 2 ^ 24 -> float_sum l = float_of_Z (sumZ l).
Proof.
  induction l as [|x l IH] using rev_ind; intros Hl Hs; [done|].
  apply Forall_app in Hl as [Hl Hx]. apply Forall_cons in Hx as [Hx _]. cbv beta in Hx.
  assert (Hsum : sumZ (l ++ [x]) = sumZ l + x).
  { clear. unfold sumZ. induction l as [|a l IH]; simpl in *; lia. }
  assert (H0 : 0 <= sumZ l).
  { clear -Hl. unfold sumZ. induction Hl as [|a l Ha Hl IH]; simpl in *; lia. }
  rewrite Hsum in Hs |- *. unfold float_sum. rewrite foldl_app. cbn [foldl].
  fold (float_sum l). rewrite IH by (done || lia). unfold float_add_Z.
  by apply float_add_exact.
Qed.

(** ** The serial output of the reports *)

Ltac trace_out :=
  unfold emitted; cbn [trace world_of snd emit];
  rewrite <- ?app_assoc; rewrite drop_app_length; cbn [app].

Lemma V4_report_emitted e g w :
  emitted w (world_of (V4.report e g w)) =
  let '(hr, ox, n) := V4.totals (V4.topReadings g) in
  [Millis (clock e (ticks w)); Println (VStr "----------------------------------------")] ++
  (if Nat.eqb n 5 then
     [Print (VStr "Time: "); Millis (clock e (S (ticks w)));
      Print (VInt (clock e (S (ticks w)) / 1000)); Println (VStr "s");
      Println (VStr "Averaged Report (from top 5 readings):");
      Print (VStr "Average Heart Rate: "); Println (VFlt (float_div_nat hr 5) 2);
      Print (VStr "Average SpO2: "); Println (VFlt (float_div_nat ox 5) 2)]
   else
     [Print (VStr "Collecting high-confidence data... ("); Print (VInt (Z.of_nat n));
      Print (VStr "/"); Print (VInt 5); Println (VStr " collected)")]) ++
  [Println (VStr "----------------------------------------")].
Proof.
  unfold V4.report, V4.reset_top, V4.NUM_READINGS. cbn [for_up]. run_prog.
  cbn [V4.topReadings V4.set_lastReportTime].
  destruct (V4.totals _) as [[hr ox] n].
  destruct (Nat.eqb n 5); run_prog; trace_out; reflexivity.
Qed.

Lemma sum_top_spec mid : forall pre post hr0 ox0 n0,
  V4.sum_top (pre ++ mid ++ post) (length pre) (length mid) (hr0, ox0, n0) =
  (foldl float_add_Z hr0 (heartRate <$> filter populated mid),
   foldl float_add_Z ox0 (oxygen <$> filter populated mid),
   (n0 + length (filter populated mid))%nat).
Proof.
  induction mid as [|s mid IH]; intros pre post hr0 ox0 n0.
  - cbn. by rewrite Nat.add_0_r.
  - cbn [length V4.sum_top app].
    rewrite (list_lookup_total_middle pre (mid ++ post) s) by done.
    replace (pre ++ s :: mid ++ post) with ((pre ++ [s]) ++ mid ++ post)
      by (by rewrite <- app_assoc).
    replace (S (length pre)) with (length (pre ++ [s])) by (rewrite length_app; simpl; lia).
    rewrite filter_cons.
    destruct (decide (populated s)) as [Hs|Hs]; unfold populated in Hs.
    + rewrite (proj2 (Z.ltb_lt _ _) Hs), IH. cbn [fmap list_fmap foldl length].
      f_equal. lia.
    + rewrite (proj2 (Z.ltb_ge _ _)) by lia. apply IH.
Qed.

Lemma V4_totals_spec arr :
  length arr = 5%nat ->
  V4.totals arr =
  (float_sum (heartRate <$> filter populated arr),
   float_sum (oxygen <$> filter populated arr),
   length (filter populated arr)).
Proof.
  intros Hlen. unfold V4.totals, V4.NUM_READINGS.
  pose proof (sum_top_spec arr [] [] float_zero float_zero 0%nat) as H.
  cbn [app length] in H. rewrite app_nil_r, Hlen in H. exact H.
Qed.

Lemma to_long_add_l a b : to_long (to_long a + b) = to_long (a + b).
Proof.
  unfold to_long, wrap_signed. f_equal.
  replace ((a + 2 ^ (32 - 1)) mod 2 ^ 32 - 2 ^ (32 - 1) + b + 2 ^ (32 - 1))
    with ((a + 2 ^ (32 - 1)) mod 2 ^ 32 + b) by lia.
  rewrite Zplus_mod_idemp_l. f_equal. lia.
Qed.

Lemma long_sum_spec (l : list Z) : forall a,
  foldl (fun acc z => to_long (acc + z)) (to_long a) l = to_long (a + sumZ l).
Proof.
  induction l as [|x l IH]; intros a; cbn [foldl sumZ foldr].
  - by rewrite Z.add_0_r.
  - fold (sumZ l). rewrite to_long_add_l, IH. f_equal. lia.
Qed.

Lemma long_sum_zero (l : list Z) :
  foldl (fun acc z => to_long (acc + z)) 0 l = to_long (sumZ l).
Proof. exact (long_sum_spec l 0). Qed.

Lemma sum_first_spec mid : forall pre post acc,
  V3.sum_first (pre ++ mid ++ post) (length pre) (length mid) acc =
  V3.mkSums (foldl float_add_Z (V3.sumHeartRate acc) (V3.heartRate <$> mid))
            (foldl float_add_Z (V3.sumOxygen acc) (V3.oxygen <$> mid))
            (foldl float_add_Z (V3.sumConfidence acc) (V3.confidence <$> mid))
            (foldl (fun a z => to_long (a + z)) (V3.sumIrLed acc) (V3.irLed <$> mid))
            (foldl (fun a z => to_long (a + z)) (V3.sumRedLed acc) (V3.redLed <$> mid)).
Proof.
  induction mid as [|s mid IH]; intros pre post acc.
  - by destruct acc.
  - cbn [length V3.sum_first app].
    rewrite (list_lookup_total_middle pre (mid ++ post) s) by done.
    replace (pre ++ s :: mid ++ post) with ((pre ++ [s]) ++ mid ++ post)
      by (by rewrite <- app_assoc).
    replace (S (length pre)) with (length (pre ++ [s])) by (rewrite length_app; simpl; lia).
    by rewrite IH.
Qed.

Lemma V3_averages_spec arr n :
  (n <= length arr)%nat ->
  let top := take n arr in
  V3.averages arr n =
  V3.mkSums (float_mean (V3.heartRate <$> top)) (float_mean (V3.oxygen <$> top))
            (float_mean (V3.confidence <$> top))
            (long_mean (V3.irLed <$> top)) (long_mean (V3.redLed <$> top)).
Proof.
  intros Hn top. unfold V3.averages, float_mean, long_mean, float_sum.
  pose proof (sum_first_spec (take n arr) [] (drop n arr) V3.sums_zero) as H.
  cbn [app length] in H. rewrite take_drop, length_take in H.
  replace (n `min` length arr)%nat with n in H by lia.
  rewrite H. cbn [V3.sumHeartRate V3.sumOxygen V3.sumConfidence V3.sumIrLed V3.sumRedLed
                  V3.sums_zero].
  rewrite !long_sum_zero.
  subst top. rewrite !length_fmap, length_take.
  by replace (n `min` length arr)%nat with n by lia.
Qed.

Lemma top_k_min k l : top_k (Nat.min k (length l)) l = top_k k l.
Proof.
  unfold top_k. destruct (Nat.le_ge_cases k (length l)) as [H|H].
  - by rewrite Nat.min_l.
  - rewrite Nat.min_r by done. rewrite !take_ge; [done|by rewrite sort_desc_length..].
Qed.

Lemma V3_confidence_of_bio bits (l : list bioData) :
  V3.confidence <$> (V3.of_bio bits <$> l) = confidence <$> l.
Proof. rewrite <- list_fmap_compose. reflexivity. Qed.

(** ** The serial output of [setup] *)

Lemma V4_setup_codes e : setup_reports_codes V4.setup V4.globals0 e.
Proof.
  unfold setup_reports_codes, V4.setup, V4.reset_top, V4.NUM_READINGS. cbn [for_up]. run_prog.
  destruct (Z.eqb_spec (begin_code e) 0), (Z.eqb_spec (config_code e) 0),
    (Z.eqb_spec (pulse_code e) 0), (Z.eqb_spec (rate_code e) 0);
    run_prog; cbn [world0 trace app world_of snd];
    (split; [reflexivity|]); repeat split; intros; try done.
  all: cbn; rewrite ?Z.eqb_refl; reflexivity.
Qed.

Lemma V3_setup_codes e : setup_reports_codes V3.setup V3.globals0 e.
Proof.
  unfold setup_reports_codes, V3.setup. run_prog.
  destruct (Z.eqb_spec (begin_code e) 0), (Z.eqb_spec (config_code e) 0),
    (Z.eqb_spec (pulse_code e) 0), (Z.eqb_spec (rate_code e) 0);
    run_prog; cbn [world0 trace app world_of snd];
    (split; [reflexivity|]); repeat split; intros; try done.
  all: cbn; rewrite ?Z.eqb_refl; reflexivity.
Qed.

Lemma V2_setup_codes e : setup_reports_codes V2.setup V2.globals0 e.
Proof.
  unfold setup_reports_codes, V2.setup, V2.stabilise. cbn [for_up]. run_prog.
  destruct (Z.eqb_spec (begin_code e) 0), (Z.eqb_spec (config_code e) 0),
    (Z.eqb_spec (pulse_code e) 0), (Z.eqb_spec (rate_code e) 0);
    run_prog; cbn [world0 trace app world_of snd];
    (split; [reflexivity|]); repeat split; intros; try done.
  all: cbn; rewrite ?Z.eqb_refl; reflexivity.
Qed.

Lemma Forall_cleared (arr : list bioData) : Forall cleared (V4.clear_slot <$> arr).
Proof. apply Forall_fmap, Forall_true. intros s. by repeat split. Qed.

Lemma V2_report_prints_means e g w win :
  V2_inv g win ->
  let vs := filter (fun b => V2.valid b) (win ++ [sensor e (reads w)]) in
  let evs := emitted w (world_of (V2.loop e g w)) in
  V2_reports e g w = true -> vs <> [] ->
  printed_after "Average Heart Rate: " evs
    = Some (VFlt (float_mean (heartRate <$> vs)) 1) /\
  printed_after "Average Blood Oxygen: " evs
    = Some (VFlt (float_mean (oxygen <$> vs)) 1) /\
  printed_after "Average IR LED counts: " evs
    = Some (VFlt (float_mean (irLed <$> vs)) 0) /\
  printed_after "Average Red LED counts: " evs
    = Some (VFlt (float_mean (redLed <$> vs)) 0).
Proof.
  intros Hinv vs evs Hr Hvs.
  pose proof (V2_inv_fetch e g w win Hinv) as (Hcnt & Hhr & Hox & Hir & Hred).
  fold vs in Hcnt, Hhr, Hox, Hir, Hred.
  assert (Hpos : (0 <? V2.validReadingsCount (V2_fetched e g w))%nat = true).
  { apply Nat.ltb_lt. rewrite Hcnt. destruct vs; [done|simpl; lia]. }
  unfold float_mean. rewrite !length_fmap, <- Hhr, <- Hox, <- Hir, <- Hred, <- Hcnt.
  subst evs. unfold V2_reports in Hr. unfold V2_fetched in *. unfold V2.loop. run_prog.
  destruct (V2.valid (sensor e (reads w))); run_prog; rewrite Hr; run_prog;
    unfold V2.display; rewrite Hpos; run_prog; trace_out;
    repeat split; reflexivity.
Qed.

Lemma V3_report_prints_means now e g w :
  (V3.readingCount g <= length (V3.readings g))%nat ->
  let n := Nat.min 5 (V3.readingCount g) in
  let top := take n (V3.sortReadingsByConfidence (V3.readings g) (V3.readingCount g)) in
  let evs := emitted w (world_of (V3.report now e g w)) in
  printed_after "Average Heartrate: " evs
    = Some (VFlt (float_mean (V3.heartRate <$> top)) 1) /\
  printed_after "Average Blood Oxygen: " evs
    = Some (VFlt (float_mean (V3.oxygen <$> top)) 1) /\
  printed_after "Average Confidence: " evs
    = Some (VFlt (float_mean (V3.confidence <$> top)) 1) /\
  printed_after "Average IR LED: " evs = Some (VInt (long_mean (V3.irLed <$> top))) /\
  printed_after "Average Red LED: " evs = Some (VInt (long_mean (V3.redLed <$> top))).
Proof.
  intros Hn n top evs. subst evs. unfold V3.report. run_prog.
  cbn [V3.readings V3.readingCount V3.set_readings]. fold n. trace_out.
  set (sorted := V3.sortReadingsByConfidence _ _) in *.
  assert (Hlen : (n <= length sorted)%nat).
  { unfold sorted. rewrite sortReadingsByConfidence_length by done. lia. }
  rewrite (V3_averages_spec sorted n Hlen). fold top.
  repeat split; reflexivity.
Qed.

Lemma V3_loop_prints_means e g w :
  let g1 := V3.store (int_bits e) (V3.set_body (sensor e (reads w)) g) in
  let n := Nat.min 5 (V3.readingCount g1) in
  let top := take n (V3.sortReadingsByConfidence (V3.readings g1) (V3.readingCount g1)) in
  let evs := emitted w (world_of (V3.loop e g w)) in
  (V3.readingCount g1 <= length (V3.readings g1))%nat ->
  V3_reports e g w = true ->
  (0 < n)%nat /\ length top = n /\
  printed_after "Average Heartrate: " evs
    = Some (VFlt (float_mean (V3.heartRate <$> top)) 1) /\
  printed_after "Average Blood Oxygen: " evs
    = Some (VFlt (float_mean (V3.oxygen <$> top)) 1) /\
  printed_after "Average Confidence: " evs
    = Some (VFlt (float_mean (V3.confidence <$> top)) 1) /\
  printed_after "Average IR LED: " evs = Some (VInt (long_mean (V3.irLed <$> top))) /\
  printed_after "Average Red LED: " evs = Some (VInt (long_mean (V3.redLed <$> top))).
Proof.
  intros g1 n top evs Hn Hr. subst evs.
  assert (Hlen : (n <= length (V3.sortReadingsByConfidence (V3.readings g1)
                                 (V3.readingCount g1)))%nat).
  { rewrite sortReadingsByConfidence_length by done. lia. }
  assert (Hpos : (0 < n)%nat).
  { unfold V3_reports, V3.due in Hr. fold g1 in Hr.
    apply andb_true_iff in Hr as [_ Hr]. apply Nat.ltb_lt in Hr. lia. }
  split; [done|]. split; [subst top; rewrite length_take; lia|].
  unfold V3_reports in Hr. unfold V3.loop. run_prog. fold g1 in Hr |- *. rewrite Hr.
  run_prog. unfold V3.report. run_prog.
  cbn [V3.readings V3.readingCount V3.set_readings]. fold n. trace_out.
  rewrite (V3_averages_spec _ n Hlen). fold top.
  repeat split; reflexivity.
Qed.

Lemma V4_report_prints_means e g w :
  length (V4.topReadings g) = 5%nat ->
  let pop := filter populated (V4.topReadings g) in
  let evs := emitted w (world_of (V4.report e g w)) in
  (length pop = 5%nat ->
   printed_after "Average Heart Rate: " evs
     = Some (VFlt (float_mean (heartRate <$> pop)) 2) /\
   printed_after "Average SpO2: " evs
     = Some (VFlt (float_mean (oxygen <$> pop)) 2)) /\
  (length pop <> 5%nat ->
   printed_after "Average Heart Rate: " evs = None /\
   printed_after "Average SpO2: " evs = None).
Proof.
  intros Hlen pop evs. subst evs. rewrite V4_report_emitted, (V4_totals_spec _ Hlen).
  fold pop. unfold float_mean. rewrite !length_fmap. split.
  - intros H5. rewrite H5. cbn [Nat.eqb]. split; reflexivity.
  - intros H5. rewrite (proj2 (Nat.eqb_neq _ _) H5). split; reflexivity.
Qed.

(** ** What one iteration prints and fetches *)







(** ** What [setup] fetches, and the counts the reports print *)

Lemma V4_setup_world e g w :
  reads (world_of (V4.setup e g w)) = reads w /\
  ticks (world_of (V4.setup e g w)) = ticks w.
Proof.
  unfold V4.setup, V4.reset_top, V4.NUM_READINGS. cbn [for_up]. run_prog.
  destruct (begin_code e =? 0), (config_code e =? 0), (pulse_code e =? 0), (rate_code e =? 0);
    split; reflexivity.
Qed.

Lemma V3_setup_world e g w :
  reads (world_of (V3.setup e g w)) = reads w /\
  ticks (world_of (V3.setup e g w)) = S (ticks w).
Proof.
  unfold V3.setup. run_prog.
  destruct (begin_code e =? 0), (config_code e =? 0), (pulse_code e =? 0), (rate_code e =? 0);
    split; reflexivity.
Qed.

Lemma for_up_world {G} (body : nat -> prog G unit) :
  (forall i e g w, reads (world_of (body i e g w)) = S (reads w)
                   /\ ticks (world_of (body i e g w)) = ticks w) ->
  forall n i e g w,
    reads (world_of (for_up i n body e g w)) = (reads w + n)%nat /\
    ticks (world_of (for_up i n body e g w)) = ticks w.
Proof.
  intros Hbody. induction n as [|n IH]; intros i e g w.
  - cbn. split; [lia|done].
  - cbn [for_up]. unfold bind. destruct (Hbody i e g w) as [H1 H2].
    destruct (body i e g w) as [[u g1] w1]. cbn in H1, H2.
    destruct (IH (S i) e g1 w1) as [H3 H4]. rewrite H3, H4, H1, H2. split; [lia|done].
Qed.

Lemma V2_stabilise_world e g w :
  reads (world_of (V2.stabilise e g w)) = (reads w + 20)%nat /\
  ticks (world_of (V2.stabilise e g w)) = ticks w.
Proof. apply (for_up_world _). clear. intros i e g w. split; reflexivity. Qed.

Lemma V2_setup_world e g w :
  reads (world_of (V2.setup e g w)) = (reads w + 20)%nat /\
  ticks (world_of (V2.setup e g w)) = S (ticks w) /\
  V2.lastDisplayTime (globals_of (V2.setup e g w)) = clock e (ticks w).
Proof.
  unfold V2.setup. run_prog.
  destruct (begin_code e =? 0), (config_code e =? 0), (pulse_code e =? 0), (rate_code e =? 0);
    run_prog;
    match goal with |- context [V2.stabilise e ?g ?w] =>
      destruct (V2_stabilise_world e g w) as [Hr Ht];
      destruct (V2.stabilise e g w) as [[u g1] w1] end;
    cbn in Hr, Ht |- *; rewrite Hr, Ht; done.
Qed.





Lemma V2_loop_prints_count e g w :
  V2_reports e g w = true ->
  (0 < V2.validReadingsCount (V2_fetched e g w))%nat ->
  printed_after "AVERAGES (" (emitted w (world_of (V2.loop e g w)))
  = Some (VInt (Z.of_nat (V2.validReadingsCount (V2_fetched e g w)))).
Proof.
  intros Hr Hpos. apply Nat.ltb_lt in Hpos.
  unfold V2_reports in Hr. unfold V2_fetched in *. unfold V2.loop. run_prog.
  destruct (V2.valid (sensor e (reads w))); run_prog; rewrite Hr; run_prog;
    unfold V2.display; rewrite Hpos; run_prog; trace_out; reflexivity.
Qed.

Lemma V3_loop_prints_total e g w :
  V3_reports e g w = true ->
  printed_after "Total readings collected: " (emitted w (world_of (V3.loop e g w)))
  = Some (VInt (Z.of_nat (V3.readingCount (V3.store (int_bits e) (V3.set_body (sensor e (reads w)) g))))).
Proof.
  intros Hr. unfold V3_reports in Hr. unfold V3.loop. run_prog. rewrite Hr. run_prog.
  unfold V3.report. run_prog. trace_out. reflexivity.
Qed.

(** * The properties of the specification *)

(** C1 (as amended).  v4: after [setup] and any number of loop iterations,
    the confidences of the populated slots of [topReadings], sorted highest
    first, are the five highest confidences above 50 seen in the current
    window (all of them when fewer than five have arrived), and every
    populated slot holds a reading of that window.  v3: at an iteration
    that reports, the confidences of the first [min(5, readingCount)]
    entries of [readings] after the sort are the highest among the
    readings that were stored, which are the first 100 confident readings
    of the window. *)
Theorem C1_top_k_buffer e k :
  (let '(g, _, win) := V4_windowed e k in
   sort_desc (confidence <$> filter populated (V4.topReadings g)) = top_k 5 (accepted win)
   /\ forall s, s ∈ V4.topReadings g -> populated s -> s ∈ win) /\
  (let '(g, w, win) := V3_windowed e k in
   V3_reports e g w = true ->
   let stored := take V3.MAX_READINGS (filter confident (win ++ [sensor e (reads w)])) in
   let sorted := V3.readings (globals_of (V3.loop e g w)) in
   V3.readingCount (V3.store (int_bits e) (V3.set_body (sensor e (reads w)) g)) = length stored /\
   V3.confidence <$> take (Nat.min 5 (length stored)) sorted
   = top_k 5 (confidence <$> stored)).
Proof.
  split.
  - pose proof (V4_windowed_inv e k) as H. destruct (V4_windowed e k) as [[g w] win].
    split; [by apply V4_inv_top|].
    destruct H as (_ & Hall & _). rewrite Forall_forall in Hall.
    intros s Hs Hp. destruct (Hall s Hs) as [H0|[_ ?]]; [|done].
    unfold populated in Hp. lia.
  - pose proof (V3_windowed_inv e k) as H. destruct (V3_windowed e k) as [[g w] win].
    intros Hr stored sorted. subst sorted stored. unfold V3.MAX_READINGS.
    set (stored := take 100 _). rewrite V3_loop_globals, Hr.
    cbn [V3.readings V3.set_lastDisplayTime V3.set_readingCount V3.set_readings].
    destruct (V3_inv_store _ g win (sensor e (reads w)) H) as (Hlen & Hcnt & Htake).
    fold stored in Hcnt, Htake. split; [exact Hcnt|]. rewrite <- Hcnt.
    rewrite sortReadingsByConfidence_top; [|rewrite Hlen, Hcnt; unfold stored; rewrite length_take; lia|lia].
    rewrite Htake, V3_confidence_of_bio.
    rewrite Hcnt. rewrite <- (length_fmap confidence stored). apply top_k_min.
Qed.

(** C1 as stated fails for v3: with 101 confident readings in one window,
    the last one of confidence 200, the report's first five entries all
    have confidence 60. *)
Lemma C1_counterexample :
  let '(g, w, win) := V3_windowed env_full 100 in
  V3_reports env_full g w = true /\
  V3.confidence <$> take 5 (V3.readings (globals_of (V3.loop env_full g w)))
    = [60; 60; 60; 60; 60] /\
  top_k 5 (accepted (win ++ [sensor env_full (reads w)])) = [200; 60; 60; 60; 60].
Proof. vm_compute. repeat split. Qed.

(** C1 at [env_full], where the iteration after the first hundred reports. *)
Lemma C1_witness :
  (let '(g, w, _) := V3_windowed env_full 100 in V3_reports env_full g w = true) /\
  (let '(g, w, win) := V3_windowed env_full 100 in
   V3_reports env_full g w = true ->
   let stored := take V3.MAX_READINGS (filter confident (win ++ [sensor env_full (reads w)])) in
   let sorted := V3.readings (globals_of (V3.loop env_full g w)) in
   V3.readingCount (V3.store (int_bits env_full) (V3.set_body (sensor env_full (reads w)) g)) = length stored /\
   V3.confidence <$> take (Nat.min 5 (length stored)) sorted
   = top_k 5 (confidence <$> stored)).
Proof.
  split; [vm_compute; reflexivity|].
  pose proof (C1_top_k_buffer env_full 100) as H.
  destruct H as [_ H]. exact H.
Defined.

(** C2 (as amended).  The sketches average in single-precision floats: a
    printed average is [float_mean] of the values, that is their sum taken
    in a [float] from first to last, divided in [float] by their number,
    and need not be their arithmetic mean, since every conversion,
    addition and division rounds.  At a report, v2 prints
    [float_mean] of heart rate, oxygen and the two LED counts over the
    valid readings accumulated in the window; v3 prints [float_mean] of
    heart rate, oxygen and confidence over the first
    [min(5, readingCount)] sorted entries, at least one, and, for the two
    LED counts, the integer quotient of their sum as a 32-bit [long] by
    that number; v4 prints [float_mean] of heart rate and oxygen over the
    populated slots when all five are populated, and no average
    otherwise.  For non-negative values whose sum is below 2^24, as the
    heart rates and oxygen values of a window are, the sum is exact and
    [float_mean] is the [float] quotient of the sum by the number of
    values. *)
Theorem C2_reported_averages e k2 k3 (g4 : V4.globals) (w4 : world) (l : list Z) :
  (let '(g, w, win) := V2_windowed e k2 in
   let vs := filter (fun b => V2.valid b) (win ++ [sensor e (reads w)]) in
   let evs := emitted w (world_of (V2.loop e g w)) in
   V2_reports e g w = true -> vs <> [] ->
   printed_after "Average Heart Rate: " evs
     = Some (VFlt (float_mean (heartRate <$> vs)) 1) /\
   printed_after "Average Blood Oxygen: " evs
     = Some (VFlt (float_mean (oxygen <$> vs)) 1) /\
   printed_after "Average IR LED counts: " evs
     = Some (VFlt (float_mean (irLed <$> vs)) 0) /\
   printed_after "Average Red LED counts: " evs
     = Some (VFlt (float_mean (redLed <$> vs)) 0)) /\
  (let '(g, w, _) := V3_windowed e k3 in
   let g1 := V3.store (int_bits e) (V3.set_body (sensor e (reads w)) g) in
   let n := Nat.min 5 (V3.readingCount g1) in
   let top := take n (V3.sortReadingsByConfidence (V3.readings g1) (V3.readingCount g1)) in
   let evs := emitted w (world_of (V3.loop e g w)) in
   V3_reports e g w = true ->
   (0 < n)%nat /\ length top = n /\
   printed_after "Average Heartrate: " evs
     = Some (VFlt (float_mean (V3.heartRate <$> top)) 1) /\
   printed_after "Average Blood Oxygen: " evs
     = Some (VFlt (float_mean (V3.oxygen <$> top)) 1) /\
   printed_after "Average Confidence: " evs
     = Some (VFlt (float_mean (V3.confidence <$> top)) 1) /\
   printed_after "Average IR LED: " evs = Some (VInt (long_mean (V3.irLed <$> top))) /\
   printed_after "Average Red LED: " evs = Some (VInt (long_mean (V3.redLed <$> top)))) /\
  (length (V4.topReadings g4) = 5%nat ->
   let pop := filter populated (V4.topReadings g4) in
   let evs := emitted w4 (world_of (V4.report e g4 w4)) in
   (length pop = 5%nat ->
    printed_after "Average Heart Rate: " evs
      = Some (VFlt (float_mean (heartRate <$> pop)) 2) /\
    printed_after "Average SpO2: " evs
      = Some (VFlt (float_mean (oxygen <$> pop)) 2)) /\
   (length pop <> 5%nat ->
    printed_after "Average Heart Rate: " evs = None /\
    printed_after "Average SpO2: " evs = None)) /\
  (Forall (fun z => 0 <= z) l -> sumZ l < 2 ^ 24 ->
   float_mean l = float_div (float_of_Z (sumZ l)) (float_of_Z (Z.of_nat (length l)))).
Proof.
  split; [|split; [|split]].
  - pose proof (V2_windowed_inv e k2) as Hinv.
    destruct (V2_windowed e k2) as [[g w] win].
    exact (V2_report_prints_means e g w win Hinv).
  - pose proof (V3_windowed_inv e k3) as Hinv.
    destruct (V3_windowed e k3) as [[g w] win].
    destruct (V3_inv_store _ g win (sensor e (reads w)) Hinv) as (Hlen & Hcnt & _).
    apply V3_loop_prints_means. rewrite Hcnt, Hlen, length_take. lia.
  - exact (V4_report_prints_means e g4 w4).
  - intros Hl Hs. unfold float_mean, float_div_nat. by rewrite float_sum_exact.
Qed.

(** C2 as stated fails in each sketch.  v2: five valid readings of IR
    count 16777217 are reported with the average 16777216, the [float]
    nearest to each of them.  v3: two stored readings with IR counts
    100001 and 100002 are reported as 100001, the quotient of the integer
    division.  v4: heart rates 70, 71, 72, 73 and 75, of mean 361/5, are
    reported as the [float] 9463398 / 131072. *)
Lemma C2_counterexample :
  (let '(g, w, win) := V2_windowed env_bright 4 in
   let vs := filter (fun b => V2.valid b) (win ++ [sensor env_bright (reads w)]) in
   V2_reports env_bright g w = true /\
   irLed <$> vs = [16777217; 16777217; 16777217; 16777217; 16777217] /\
   printed_after "Average IR LED counts: " (emitted w (world_of (V2.loop env_bright g w)))
     = Some (VFlt (S754_finite false 8388608 1) 0) /\
   float_to_Q (S754_finite false 8388608 1) = Some (16777216 # 1) /\
   ~ (16777216 # 1 == mean (irLed <$> vs))%Q) /\
  (let '(g, w, _) := V3_windowed env_two 1 in
   let r := V3.loop env_two g w in
   let top := take 2 (V3.readings (globals_of r)) in
   V3_reports env_two g w = true /\
   V3.irLed <$> top = [100002; 100001] /\
   printed_after "Average IR LED: " (emitted w (world_of r)) = Some (VInt 100001) /\
   ~ (inject_Z 100001 == mean (V3.irLed <$> top))%Q) /\
  (let pop := filter populated (V4.topReadings g4_full) in
   heartRate <$> pop = [70; 71; 72; 73; 75] /\
   printed_after "Average Heart Rate: "
     (emitted world0 (world_of (V4.report env_five g4_full world0)))
     = Some (VFlt (S754_finite false 9463398 (-17)) 2) /\
   float_to_Q (S754_finite false 9463398 (-17)) = Some (9463398 # 131072) /\
   ~ (9463398 # 131072 == mean (heartRate <$> pop))%Q).
Proof.
  vm_compute. repeat split; try (intros H; discriminate H).
Qed.

(** C2 at [env_five], where the fifth iteration of v2 and the tenth of v3
    report, and at a full buffer of v4. *)
Lemma C2_witness :
  (let '(g, w, win) := V2_windowed env_five 4 in
   V2_reports env_five g w = true /\
   filter (fun b => V2.valid b) (win ++ [sensor env_five (reads w)]) <> []) /\
  (let '(g, w, _) := V3_windowed env_five 9 in
   V3_reports env_five g w = true /\
   V3.readingCount (V3.store (int_bits env_five) (V3.set_body (sensor env_five (reads w)) g))
   = 10%nat) /\
  length (V4.topReadings g4_full) = 5%nat /\
  length (filter populated (V4.topReadings g4_full)) = 5%nat /\
  (let '(g, w, win) := V2_windowed env_five 4 in
   let vs := filter (fun b => V2.valid b) (win ++ [sensor env_five (reads w)]) in
   V2_reports env_five g w = true -> vs <> [] ->
   printed_after "Average Heart Rate: " (emitted w (world_of (V2.loop env_five g w)))
     = Some (VFlt (float_mean (heartRate <$> vs)) 1)) /\
  (let '(g, w, _) := V3_windowed env_five 9 in
   let g1 := V3.store (int_bits env_five) (V3.set_body (sensor env_five (reads w)) g) in
   let top := take (Nat.min 5 (V3.readingCount g1))
                (V3.sortReadingsByConfidence (V3.readings g1) (V3.readingCount g1)) in
   V3_reports env_five g w = true ->
   printed_after "Average Heartrate: " (emitted w (world_of (V3.loop env_five g w)))
     = Some (VFlt (float_mean (V3.heartRate <$> top)) 1) /\
   printed_after "Average IR LED: " (emitted w (world_of (V3.loop env_five g w)))
     = Some (VInt (long_mean (V3.irLed <$> top)))) /\
  printed_after "Average Heart Rate: "
    (emitted world0 (world_of (V4.report env_five g4_full world0)))
    = Some (VFlt (float_mean (heartRate <$> filter populated (V4.topReadings g4_full))) 2) /\
  Forall (fun z => 0 <= z) [70; 71; 72; 73; 75] /\
  sumZ [70; 71; 72; 73; 75] < 2 ^ 24 /\
  float_mean [70; 71; 72; 73; 75] = float_div (float_of_Z 361) (float_of_Z 5).
Proof.
  split; [vm_compute; split; [reflexivity|discriminate]|].
  split; [vm_compute; split; reflexivity|].
  split; [reflexivity|]. split; [reflexivity|].
  assert (Hl : Forall (fun z => 0 <= z) [70; 71; 72; 73; 75]) by (repeat constructor; lia).
  assert (Hs : sumZ [70; 71; 72; 73; 75] < 2 ^ 24) by reflexivity.
  pose proof (C2_reported_averages env_five 4 9 g4_full world0 [70; 71; 72; 73; 75]) as H.
  destruct H as (H2 & H3 & H4 & H5).
  split; [|split; [|split; [|split; [exact Hl|split; [exact Hs|exact (H5 Hl Hs)]]]]].
  - destruct (V2_windowed env_five 4) as [[g w] win]. intros vs Hr Hvs.
    exact (proj1 (H2 Hr Hvs)).
  - destruct (V3_windowed env_five 9) as [[g w] win]. intros g1 top Hr.
    destruct (H3 Hr) as (_ & _ & Hhr & _ & _ & Hir & _). split; [exact Hhr|exact Hir].
  - exact (proj1 (proj1 (H4 eq_refl) eq_refl)).
Defined.

(** C3.  For a reading of confidence above 50, [minConfidenceIndex] is a
    slot whose confidence is least among the five; the insertion step puts
    the reading in that slot when its confidence strictly exceeds that
    minimum and leaves the buffer as it is otherwise; an iteration of
    [loop] that does not report leaves exactly that buffer. *)
Theorem C3_replace_minimum e g w :
  let arr := V4.topReadings g in
  let b := sensor e (reads w) in
  let m := V4.minConfidenceIndex arr in
  length arr = 5%nat -> 50 < confidence b ->
  (m < 5)%nat /\
  (forall j, (j < 5)%nat -> confidence (arr !!! m) <= confidence (arr !!! j)) /\
  (confidence (arr !!! m) < confidence b -> V4.keep_best arr b = <[m := b]> arr) /\
  (confidence b <= confidence (arr !!! m) -> V4.keep_best arr b = arr) /\
  (V4_reports e g w = false ->
   V4.topReadings (globals_of (V4.loop e g w)) = V4.keep_best arr b).
Proof.
  intros arr b m Hlen Hb.
  destruct (minConfidenceIndex_spec arr) as [Hm Hmin]. fold m in Hm, Hmin.
  split; [done|]. split; [done|].
  split; [|split].
  - intros H. unfold V4.keep_best. fold m.
    by rewrite (proj2 (Z.ltb_lt _ _) Hb), (proj2 (Z.ltb_lt _ _) H).
  - intros H. unfold V4.keep_best. fold m.
    by rewrite (proj2 (Z.ltb_lt _ _) Hb), (proj2 (Z.ltb_ge _ _) H).
  - intros Hr. rewrite V4_loop_globals by done. rewrite Hr. reflexivity.
Qed.

(** C3 at a buffer whose first empty slot is slot 1. *)
Lemma C3_witness :
  length (V4.topReadings g4_three) = 5%nat /\
  50 < confidence (sensor env_full (reads world0)) /\
  V4.minConfidenceIndex (V4.topReadings g4_three) = 1%nat /\
  V4.keep_best (V4.topReadings g4_three) (sensor env_full (reads world0))
    = <[1%nat := sensor env_full (reads world0)]> (V4.topReadings g4_three).
Proof.
  split; [reflexivity|]. split; [reflexivity|]. split; [reflexivity|].
  pose proof (C3_replace_minimum env_full g4_three world0 eq_refl eq_refl) as H.
  destruct H as (_ & _ & H & _). apply H. reflexivity.
Defined.




(** C5 (as amended).  A reading of confidence at most 50 changes neither
    the sums and count of v2, nor the array and count of v3, nor the
    buffer of v4.  A reading is taken in by v2 exactly when its confidence
    is above 50 and its heart rate and oxygen are positive, by v3 exactly
    when its confidence is above 50 and fewer than 100 readings are
    stored, by v4 exactly when its confidence is above 50 and above the
    least confidence of the buffer. *)
Theorem C5_confidence_filter e (g2 : V2.globals) (g3 : V3.globals) (g4 : V4.globals) w :
  let b := sensor e (reads w) in
  let arr := V4.topReadings g4 in
  let m := V4.minConfidenceIndex arr in
  length arr = 5%nat ->
  (confidence b <= 50 ->
     V2_fetched e g2 w = V2.set_body b g2 /\
     V3.store (int_bits e) (V3.set_body b g3) = V3.set_body b g3 /\
     V4.keep_best arr b = arr) /\
  (if decide (50 < confidence b /\ 0 < heartRate b /\ 0 < oxygen b)
   then V2_fetched e g2 w = V2.accumulate (V2.set_body b g2)
   else V2_fetched e g2 w = V2.set_body b g2) /\
  (if decide (50 < confidence b /\ (V3.readingCount g3 < V3.MAX_READINGS)%nat)
   then V3.store (int_bits e) (V3.set_body b g3) =
          V3.set_readingCount (S (V3.readingCount g3))
            (V3.set_readings (<[V3.readingCount g3 := V3.of_bio (int_bits e) b]> (V3.readings g3))
               (V3.set_body b g3))
   else V3.store (int_bits e) (V3.set_body b g3) = V3.set_body b g3) /\
  (if decide (50 < confidence b /\ confidence (arr !!! m) < confidence b)
   then V4.keep_best arr b = <[m := b]> arr
   else V4.keep_best arr b = arr) /\
  (V2_reports e g2 w = false -> globals_of (V2.loop e g2 w) = V2_fetched e g2 w) /\
  (V3_reports e g3 w = false ->
     globals_of (V3.loop e g3 w) = V3.store (int_bits e) (V3.set_body b g3)) /\
  (V4_reports e g4 w = false ->
     V4.topReadings (globals_of (V4.loop e g4 w)) = V4.keep_best arr b).
Proof.
  intros b arr m Hlen.
  assert (H2 : if decide (50 < confidence b /\ 0 < heartRate b /\ 0 < oxygen b)
               then V2_fetched e g2 w = V2.accumulate (V2.set_body b g2)
               else V2_fetched e g2 w = V2.set_body b g2).
  { unfold V2_fetched, V2.valid. fold b.
    destruct (Z.ltb_spec 50 (confidence b)), (Z.ltb_spec 0 (heartRate b)),
      (Z.ltb_spec 0 (oxygen b)); cbn [andb];
      (rewrite decide_True by done) || (rewrite decide_False by lia); done. }
  assert (H3 : if decide (50 < confidence b /\ (V3.readingCount g3 < V3.MAX_READINGS)%nat)
               then V3.store (int_bits e) (V3.set_body b g3) =
                    V3.set_readingCount (S (V3.readingCount g3))
                      (V3.set_readings (<[V3.readingCount g3 := V3.of_bio (int_bits e) b]> (V3.readings g3))
                         (V3.set_body b g3))
               else V3.store (int_bits e) (V3.set_body b g3) = V3.set_body b g3).
  { unfold V3.store. cbn [V3.body V3.set_body V3.readingCount V3.readings].
    destruct (Z.ltb_spec 50 (confidence b)),
      (Nat.ltb_spec (V3.readingCount g3) V3.MAX_READINGS); cbn [andb];
      (rewrite decide_True by done) || (rewrite decide_False by lia); done. }
  assert (H4 : if decide (50 < confidence b /\ confidence (arr !!! m) < confidence b)
               then V4.keep_best arr b = <[m := b]> arr
               else V4.keep_best arr b = arr).
  { unfold V4.keep_best. fold m.
    destruct (Z.ltb_spec 50 (confidence b)),
      (Z.ltb_spec (confidence (arr !!! m)) (confidence b));
      (rewrite decide_True by done) || (rewrite decide_False by lia); done. }
  split; [|split; [done|split; [done|split; [done|]]]].
  - intros Hb. rewrite decide_False in H2 by lia. rewrite decide_False in H3 by lia.
    rewrite decide_False in H4 by lia. done.
  - split; [|split].
    + intros Hr. by rewrite V2_loop_globals, Hr.
    + intros Hr. by rewrite V3_loop_globals, Hr.
    + intros Hr. rewrite V4_loop_globals, Hr by done. done.
Qed.

(** C5 as stated fails for v2: a reading of confidence 60 without a heart
    rate is rejected. *)
Lemma C5_counterexample :
  let '(g, w, _) := V2_windowed env_no_pulse 0 in
  let b := sensor env_no_pulse (reads w) in
  50 < confidence b /\
  V2_reports env_no_pulse g w = false /\
  globals_of (V2.loop env_no_pulse g w) = V2.set_body b g /\
  V2.validReadingsCount (globals_of (V2.loop env_no_pulse g w)) = 0%nat.
Proof. vm_compute. repeat split. Qed.

(** C5 at a reading of confidence 10. *)
Lemma C5_witness :
  length (V4.topReadings g4_three) = 5%nat /\
  confidence (sensor env_quiet (reads world0)) <= 50 /\
  V2_fetched env_quiet V2.globals0 world0
    = V2.set_body (sensor env_quiet (reads world0)) V2.globals0 /\
  V3.store (int_bits env_quiet) (V3.set_body (sensor env_quiet (reads world0)) V3.globals0)
    = V3.set_body (sensor env_quiet (reads world0)) V3.globals0 /\
  V4.keep_best (V4.topReadings g4_three) (sensor env_quiet (reads world0))
    = V4.topReadings g4_three.
Proof.
  split; [reflexivity|]. split; [vm_compute; discriminate|].
  pose proof (C5_confidence_filter env_quiet V2.globals0 V3.globals0 g4_three world0 eq_refl) as H.
  destruct H as (H & _). apply H. vm_compute. discriminate.
Defined.

(** C6 (as amended).  In every sketch [setup] makes its six driver calls
    in the same order whatever codes they return; a non-zero code of
    configSensorBpm, setPulseWidth or setSampleRate is printed after its
    error message; a non-zero code of begin is followed by no print of
    its own. *)
Theorem C6_setup_error_codes e :
  setup_reports_codes V2.setup V2.globals0 e /\
  setup_reports_codes V3.setup V3.globals0 e /\
  setup_reports_codes V4.setup V4.globals0 e.
Proof.
  split; [apply V2_setup_codes|]. split; [apply V3_setup_codes|apply V4_setup_codes].
Qed.

(** C6 as stated fails for [begin]: its code 255 is printed by no
    sketch. *)
Lemma C6_counterexample :
  begin_code env_failing = 255 /\
  existsb (prints_int 255) (trace (world_of (V2.setup env_failing V2.globals0 world0))) = false /\
  existsb (prints_int 255) (trace (world_of (V3.setup env_failing V3.globals0 world0))) = false /\
  existsb (prints_int 255) (trace (world_of (V4.setup env_failing V4.globals0 world0))) = false /\
  prints_after Begin (trace (world_of (V4.setup env_failing V4.globals0 world0)))
    = [Println (VStr "Configuring Sensor....")].
Proof. vm_compute. repeat split. Qed.

(** C6 at an environment whose driver calls all fail. *)
Lemma C6_witness :
  config_code env_failing <> 0 /\ pulse_code env_failing <> 0 /\
  rate_code env_failing <> 0 /\ begin_code env_failing <> 0 /\
  prints_after ConfigSensorBpm (trace (world_of (V3.setup env_failing V3.globals0 world0)))
    = [Println (VStr "Error configuring sensor."); Print (VStr "Error: "); Println (VInt 3)].
Proof.
  split; [discriminate|]. split; [discriminate|]. split; [discriminate|].
  split; [discriminate|].
  pose proof (C6_setup_error_codes env_failing) as H.
  destruct H as (_ & (_ & H & _) & _). apply H. discriminate.
Defined.






(** C9.  In v3, after [setup] and any number of iterations [readingCount]
    is at most [MAX_READINGS] and the stored entries are the first 100
    confident readings of the window; with 100 stored the next reading is
    not stored whatever its confidence, and an iteration that does not
    report prints nothing. *)
Theorem C9_v3_capacity e k :
  let '(g, w, win) := V3_windowed e k in
  (V3.readingCount g <= V3.MAX_READINGS)%nat /\
  take (V3.readingCount g) (V3.readings g)
    = V3.of_bio (int_bits e) <$> take V3.MAX_READINGS (filter confident win) /\
  (V3.readingCount g = V3.MAX_READINGS ->
   let b := sensor e (reads w) in
   V3.store (int_bits e) (V3.set_body b g) = V3.set_body b g /\
   (V3_reports e g w = false ->
    globals_of (V3.loop e g w) = V3.set_body b g /\
    filter (fun ev => is_print ev) (emitted w (world_of (V3.loop e g w))) = [])).
Proof.
  pose proof (V3_windowed_inv e k) as Hinv.
  destruct (V3_windowed e k) as [[g w] win]. destruct Hinv as (Hlen & Hcnt & Htake).
  unfold V3.MAX_READINGS. split; [|split; [done|]].
  { rewrite Hcnt, length_take. lia. }
  intros Hfull. set (b := sensor e (reads w)).
  assert (Hst : V3.store (int_bits e) (V3.set_body b g) = V3.set_body b g).
  { unfold V3.store. cbn [V3.body V3.set_body V3.readingCount]. rewrite Hfull.
    by rewrite andb_false_r. }
  split; [done|]. intros Hr. split.
  - by rewrite V3_loop_globals, Hr.
  - unfold V3_reports in Hr. unfold V3.loop. run_prog. rewrite Hr. run_prog. trace_out.
    reflexivity.
Qed.

(** C9 at [env_fast]: a hundred readings are stored before the interval
    has elapsed. *)
Lemma C9_witness :
  (let '(g, w, _) := V3_windowed env_fast 100 in
   V3.readingCount g = V3.MAX_READINGS /\
   50 < confidence (sensor env_fast (reads w)) /\
   V3_reports env_fast g w = false) /\
  (let '(g, w, _) := V3_windowed env_fast 100 in
   V3.readingCount g = V3.MAX_READINGS ->
   V3_reports env_fast g w = false ->
   globals_of (V3.loop env_fast g w) = V3.set_body (sensor env_fast (reads w)) g).
Proof.
  split; [vm_compute; repeat split|].
  pose proof (C9_v3_capacity env_fast 100) as H.
  destruct (V3_windowed env_fast 100) as [[g w] win].
  destruct H as (_ & _ & H). intros Hfull Hr. specialize (H Hfull). cbv zeta in H.
  destruct H as [_ H]. exact (proj1 (H Hr)).
Defined.



(** * Further properties of the code *)

Lemma snoc_split {A} (a : A) (l : list A) : exists init last, a :: l = init ++ [last].
Proof.
  revert a. induction l as [|b l IH]; intros a.
  - by exists [], a.
  - destruct (IH b) as (init & last & ->). by exists (a :: init), last.
Qed.

Lemma bubble_stable c l : forall a,
  filter (has_confidence c) (bubble a l) = filter (has_confidence c) (a :: l).
Proof.
  induction l as [|b l IH]; intros a; [done|]. cbn [bubble].
  destruct (Z.ltb_spec (V3.confidence a) (V3.confidence b)) as [Hlt|Hge].
  - rewrite !filter_cons, IH, !filter_cons.
    destruct (decide (has_confidence c b)) as [Hb|Hb],
      (decide (has_confidence c a)) as [Ha|Ha]; try done.
    unfold has_confidence in *. lia.
  - by rewrite (filter_cons _ a), IH, <- filter_cons.
Qed.

Lemma sort_passes_stable k : forall front tail post,
  length front = S k ->
  exists l', V3.sort_passes (front ++ tail ++ post) (length front + length tail)
               (length tail) k = l' ++ post
             /\ length l' = (length front + length tail)%nat
             /\ forall c, filter (has_confidence c) l'
                          = filter (has_confidence c) (front ++ tail).
Proof.
  induction k as [|k IH]; intros front tail post Hlen.
  - cbn [V3.sort_passes]. exists (front ++ tail).
    split; [by rewrite <- app_assoc|]. split; [by rewrite length_app|done].
  - destruct front as [|a mid]; [discriminate|]. cbn [V3.sort_passes].
    assert (Hmid : length mid = S k) by (simpl in Hlen; lia).
    replace (length (a :: mid) + length tail - length tail - 1)%nat with (length mid)
      by (simpl; lia).
    pose proof (bubble_pass_app mid [] a (tail ++ post)) as Hpass. cbn [app length] in Hpass.
    cbn [app]. rewrite Hpass.
    assert (Hb : exists init last, bubble a mid = init ++ [last]).
    { destruct (bubble_last mid a) as (init & last & Heq & _). by exists init, last. }
    destruct Hb as (init & last & Heq).
    assert (Hinit : length init = S k).
    { pose proof (Permutation_length (bubble_perm mid a)) as Hp.
      rewrite Heq, length_app in Hp. simpl in Hp. lia. }
    destruct (IH init (last :: tail) post Hinit) as (l' & Hl' & Hlen' & Hf).
    exists l'. split; [|split].
    + rewrite <- Hl', Heq, <- !app_assoc. simpl. f_equal. rewrite Hinit. simpl. lia.
    + rewrite Hlen', Hinit. simpl. lia.
    + intros c. rewrite Hf.
      change (a :: mid ++ tail) with ((a :: mid) ++ tail).
      rewrite (filter_app _ (a :: mid)), <- bubble_stable, Heq, <- filter_app, <- app_assoc.
      done.
Qed.

Lemma bubble_sorted l : forall a,
  StronglySorted conf_ge (a :: l) -> bubble a l = a :: l.
Proof.
  induction l as [|b l IH]; intros a Hs; [done|]. cbn [bubble].
  apply StronglySorted_inv in Hs as [Hs Ha].
  apply Forall_cons in Ha as [Hab _]. unfold conf_ge in Hab.
  rewrite (proj2 (Z.ltb_ge _ _) Hab). by rewrite IH.
Qed.

Lemma sort_passes_sorted k : forall front tail post,
  length front = S k ->
  StronglySorted conf_ge (front ++ tail) ->
  V3.sort_passes (front ++ tail ++ post) (length front + length tail) (length tail) k
  = front ++ tail ++ post.
Proof.
  induction k as [|k IH]; intros front tail post Hlen Hs; [done|].
  destruct front as [|a mid]; [discriminate|]. cbn [V3.sort_passes].
  assert (Hmid : length mid = S k) by (simpl in Hlen; lia).
  replace (length (a :: mid) + length tail - length tail - 1)%nat with (length mid)
    by (simpl; lia).
  pose proof (bubble_pass_app mid [] a (tail ++ post)) as Hpass. cbn [app length] in Hpass.
  cbn [app]. rewrite Hpass.
  rewrite bubble_sorted by (by apply StronglySorted_app_1_l in Hs).
  destruct (snoc_split a mid) as (init & last & Heq).
  assert (Hinit : length init = S k).
  { apply (f_equal length) in Heq. rewrite length_app in Heq. simpl in Heq. lia. }
  assert (E : a :: mid ++ tail ++ post = init ++ (last :: tail) ++ post).
  { change (a :: mid ++ tail ++ post) with ((a :: mid) ++ tail ++ post).
    by rewrite Heq, <- app_assoc. }
  cbn [app]. rewrite !E.
  replace (length (a :: mid) + length tail)%nat with (length init + length (last :: tail))%nat
    by (simpl; lia).
  change (S (length tail)) with (length (last :: tail)).
  apply IH; [done|].
  change (a :: mid ++ tail) with ((a :: mid) ++ tail) in Hs.
  by rewrite Heq, <- app_assoc in Hs.
Qed.

Lemma sortReadingsByConfidence_stable_spec arr n :
  (n <= length arr)%nat ->
  exists l', V3.sortReadingsByConfidence arr n = l' ++ drop n arr
             /\ length l' = n
             /\ forall c, filter (has_confidence c) l'
                          = filter (has_confidence c) (take n arr).
Proof.
  intros Hn. unfold V3.sortReadingsByConfidence. destruct n as [|k].
  - exists []. by rewrite drop_0.
  - assert (Hlen : length (take (S k) arr) = S k) by (rewrite length_take; lia).
    destruct (sort_passes_stable k (take (S k) arr) [] (drop (S k) arr) Hlen)
      as (l' & Heq & Hl & Hf).
    exists l'. cbn [length] in Hl. rewrite Hlen, Nat.add_0_r in Hl.
    split; [|split; [done|]].
    + rewrite <- Heq. cbn [app length]. rewrite Hlen, take_drop.
      by replace (S k + 0)%nat with (S k) by lia; replace (S k - 1)%nat with k by lia.
    + intros c. by rewrite Hf, app_nil_r.
Qed.

Lemma sortReadingsByConfidence_prefix (arr : list V3.Reading) (n : nat) :
  (n <= length arr)%nat ->
  let out := V3.sortReadingsByConfidence arr n in
  length out = length arr /\
  take n out ≡ₚ take n arr /\
  StronglySorted conf_ge (take n out) /\
  drop n out = drop n arr.
Proof.
  intros Hn out. subst out.
  destruct (sortReadingsByConfidence_spec arr n Hn) as (l' & Heq & Hp & Hs).
  assert (Hl : length l' = n) by (rewrite (Permutation_length Hp), length_take; lia).
  split; [by apply sortReadingsByConfidence_length|].
  rewrite Heq, take_app_length', drop_app_length' by done. done.
Qed.

(** X1.  [sortReadingsByConfidence arr n], for [n] within the array, keeps
    the length of the array, permutes its first [n] entries into
    descending order of confidence and leaves the entries from [n] on
    untouched. *)
Theorem X1_sort_sorts_prefix (arr : list V3.Reading) (n : nat) :
  (n <= length arr)%nat ->
  let out := V3.sortReadingsByConfidence arr n in
  length out = length arr /\
  take n out ≡ₚ take n arr /\
  StronglySorted conf_ge (take n out) /\
  drop n out = drop n arr.
Proof. apply sortReadingsByConfidence_prefix. Qed.

(** X1 at a concrete input. *)
Lemma X1_witness :
  (3 <= length arr_ties)%nat /\
  (let out := V3.sortReadingsByConfidence arr_ties 3 in
   length out = length arr_ties /\
   take 3 out ≡ₚ take 3 arr_ties /\
   StronglySorted conf_ge (take 3 out) /\
   drop 3 out = drop 3 arr_ties).
Proof.
  split; [simpl; lia|]. apply (X1_sort_sorts_prefix arr_ties 3). simpl. lia.
Defined.

(** X2.  The sort is stable: among the first [n] entries, the readings of
    any one confidence come out in the order they went in (the swap is on
    a strict comparison). *)
Theorem X2_sort_stable (arr : list V3.Reading) (n : nat) (c : Z) :
  (n <= length arr)%nat ->
  filter (has_confidence c) (take n (V3.sortReadingsByConfidence arr n))
  = filter (has_confidence c) (take n arr).
Proof.
  intros Hn.
  destruct (sortReadingsByConfidence_stable_spec arr n Hn) as (l' & Heq & Hl & Hf).
  by rewrite Heq, take_app_length'.
Qed.

(** X2 at a concrete input. *)
Lemma X2_witness :
  (3 <= length arr_ties)%nat /\
  filter (has_confidence 60) (take 3 (V3.sortReadingsByConfidence arr_ties 3))
  = filter (has_confidence 60) (take 3 arr_ties).
Proof.
  split; [simpl; lia|]. apply (X2_sort_stable arr_ties 3 60). simpl. lia.
Defined.

(** X3.  The sort leaves an array alone whose first [n] entries are
    already in descending order of confidence, so sorting twice is sorting
    once. *)
Theorem X3_sort_idempotent (arr : list V3.Reading) (n : nat) :
  (n <= length arr)%nat ->
  (StronglySorted conf_ge (take n arr) -> V3.sortReadingsByConfidence arr n = arr) /\
  V3.sortReadingsByConfidence (V3.sortReadingsByConfidence arr n) n
  = V3.sortReadingsByConfidence arr n.
Proof.
  intros Hn.
  assert (Hsorted : forall a, (n <= length a)%nat ->
            StronglySorted conf_ge (take n a) -> V3.sortReadingsByConfidence a n = a).
  { intros a Ha Hs. unfold V3.sortReadingsByConfidence. destruct n as [|k]; [done|].
    assert (Hlen : length (take (S k) a) = S k) by (rewrite length_take; lia).
    pose proof (sort_passes_sorted k (take (S k) a) [] (drop (S k) a) Hlen) as H.
    rewrite app_nil_r in H. specialize (H Hs). cbn [app length] in H.
    rewrite Hlen, take_drop in H.
    by replace (S k + 0)%nat with (S k) in H by lia; replace (S k - 1)%nat with k by lia. }
  split; [by apply Hsorted|].
  destruct (sortReadingsByConfidence_prefix arr n Hn) as (Hl & _ & Hs & _).
  apply Hsorted; [by rewrite Hl|done].
Qed.

(** X3 at a concrete input. *)
Lemma X3_witness :
  (3 <= length arr_ties)%nat /\
  V3.sortReadingsByConfidence (V3.sortReadingsByConfidence arr_ties 3) 3
  = V3.sortReadingsByConfidence arr_ties 3.
Proof.
  split; [simpl; lia|]. apply (X3_sort_idempotent arr_ties 3). simpl. lia.
Defined.

(** X4.  A report of v4 clears confidence, heart rate and oxygen of the
    five slots and keeps their LED counts and status: the slots are not
    zeroed records afterwards. *)
Theorem X4_v4_report_keeps_led_and_status e g w :
  length (V4.topReadings g) = 5%nat ->
  let after := V4.topReadings (globals_of (V4.report e g w)) in
  length after = 5%nat /\
  Forall cleared after /\
  irLed <$> after = irLed <$> V4.topReadings g /\
  redLed <$> after = redLed <$> V4.topReadings g /\
  status <$> after = status <$> V4.topReadings g.
Proof.
  intros Hlen after. subst after. rewrite V4_report_globals by done.
  cbn [V4.topReadings V4.set_topReadings].
  split; [by rewrite length_fmap|]. split; [apply Forall_cleared|].
  rewrite <- !list_fmap_compose. done.
Qed.

(** X4 at a concrete input. *)
Lemma X4_witness :
  length (V4.topReadings g4_three) = 5%nat /\
  irLed <$> V4.topReadings (globals_of (V4.report env_five g4_three world0))
  = irLed <$> V4.topReadings g4_three.
Proof.
  split; [reflexivity|].
  pose proof (X4_v4_report_keeps_led_and_status env_five g4_three world0 eq_refl) as H.
  cbv zeta in H. destruct H as (_ & _ & H & _). exact H.
Defined.


Lemma V4_loop_prints_average e g w :
  length (V4.topReadings g) = 5%nat ->
  V4_reports e g w = true ->
  let evs := emitted w (world_of (V4.loop e g w)) in
  let n := length (filter populated (V4.keep_best (V4.topReadings g) (sensor e (reads w)))) in
  (is_Some (printed_after "Average Heart Rate: " evs) <-> n = 5%nat) /\
  (n <> 5%nat ->
   printed_after "Collecting high-confidence data... (" evs = Some (VInt (Z.of_nat n))).
Proof.
  intros Hlen Hr evs n. subst evs. unfold V4_reports in Hr.
  unfold V4.loop. run_prog. cbn [V4.lastReportTime V4.set_topReadings V4.set_body].
  rewrite Hr. run_prog.
  unfold V4.report, V4.reset_top, V4.NUM_READINGS. cbn [for_up]. run_prog.
  cbn [V4.topReadings V4.set_lastReportTime V4.set_topReadings V4.set_body V4.body].
  assert (Hk : length (V4.keep_best (V4.topReadings g) (sensor e (reads w))) = 5%nat)
    by (by rewrite keep_best_length).
  rewrite (V4_totals_spec _ Hk). fold n.
  destruct (Nat.eqb_spec n 5) as [Hn|Hn]; run_prog; trace_out.
  - split; [|done]. split; [done|]. intros _. by eexists.
  - split; [|done]. split; [|done]. intros H. by apply is_Some_None in H.
Qed.



Lemma keep_best_empty (b : bioData) :
  filter populated (V4.keep_best (replicate 5 bio_zero) b)
  = if decide (confident b) then [b] else [].
Proof.
  unfold V4.keep_best, confident.
  destruct (Z.ltb_spec 50 (confidence b)) as [Hb|Hb].
  - rewrite decide_True by done.
    change (V4.minConfidenceIndex (replicate 5 bio_zero)) with 0%nat.
    change (confidence (replicate 5 bio_zero !!! 0%nat)) with 0.
    rewrite (proj2 (Z.ltb_lt 0 (confidence b))) by lia.
    change (<[0%nat:=b]> (replicate 5 bio_zero)) with (b :: replicate 4 bio_zero).
    rewrite filter_cons_True by (unfold populated; lia). done.
  - rewrite decide_False by lia. done.
Qed.

(** X5.  [setup] of v4 leaves [lastReportTime] at zero, so with the clock
    at a second or more the first iteration of [loop] reports: it prints
    the progress message for one or no reading, no average, and empties
    the buffer, so the first reading never reaches an average. *)
Theorem X5_v4_first_iteration_reports e :
  1000 <= clock e 0 < 2 ^ 32 ->
  let r0 := V4.setup e V4.globals0 world0 in
  let r := V4.loop e (globals_of r0) (world_of r0) in
  let evs := emitted (world_of r0) (world_of r) in
  V4_reports e (globals_of r0) (world_of r0) = true /\
  printed_after "Collecting high-confidence data... (" evs
    = Some (VInt (if decide (confident (sensor e 0)) then 1 else 0)) /\
  printed_after "Average Heart Rate: " evs = None /\
  filter populated (V4.topReadings (globals_of r)) = [].
Proof.
  intros Hc r0 r evs. subst evs r.
  pose proof (V4_setup_globals e V4.globals0 world0 eq_refl) as Hg.
  destruct (V4_setup_world e V4.globals0 world0) as [Hreads Hticks].
  fold r0 in Hg, Hreads, Hticks. unfold world0 in Hreads, Hticks.
  cbn [reads ticks] in Hreads, Hticks.
  set (g := globals_of r0) in *. set (w := world_of r0) in *.
  assert (Htop : V4.topReadings g = replicate 5 bio_zero) by (by rewrite Hg).
  assert (Hlen : length (V4.topReadings g) = 5%nat) by (by rewrite Htop).
  assert (Hr : V4_reports e g w = true).
  { unfold V4_reports, V4.due, V4.reportInterval, ulong_sub. rewrite Hticks, Hg.
    cbn [V4.lastReportTime V4.set_topReadings V4.set_sampleVal V4.set_pulseWidthVal V4.globals0].
    rewrite Z.sub_0_r, Z.mod_small by lia. apply Z.leb_le. lia. }
  split; [done|].
  destruct (V4_loop_prints_average e g w Hlen Hr) as [Hiff Hmsg]. cbv zeta in Hiff, Hmsg.
  rewrite Hreads, Htop, keep_best_empty in Hiff, Hmsg.
  assert (Hn : length (if decide (confident (sensor e 0)) then [sensor e 0] else []) <> 5%nat)
    by (destruct (decide _); simpl; lia).
  split; [|split].
  - rewrite (Hmsg Hn). by destruct (decide _).
  - destruct (printed_after "Average Heart Rate: " _) eqn:E; [|done].
    exfalso. apply Hn, Hiff. by eexists.
  - rewrite V4_loop_globals, Hr by done.
    cbn [V4.topReadings V4.set_topReadings].
    generalize (V4.keep_best (V4.topReadings g) (sensor e (reads w))). clear.
    intros l. induction l as [|s l IH]; [done|].
    rewrite fmap_cons, filter_cons_False; [done|]. unfold populated. simpl. lia.
Qed.

(** X5 at a concrete input. *)
Lemma X5_witness :
  1000 <= clock env_five 0 < 2 ^ 32 /\
  V4_reports env_five (globals_of (V4.setup env_five V4.globals0 world0))
    (world_of (V4.setup env_five V4.globals0 world0)) = true.
Proof.
  split; [vm_compute; split; [discriminate|reflexivity]|].
  assert (Hc : 1000 <= clock env_five 0 < 2 ^ 32)
    by (vm_compute; split; [discriminate|reflexivity]).
  pose proof (X5_v4_first_iteration_reports env_five Hc) as H.
  cbv zeta in H. destruct H as (H & _). exact H.
Defined.

(** X7.  The insertion step of v4 keeps the five slots, lowers the
    confidence of none, and changes at most the slot of
    [minConfidenceIndex], and that only into a reading of confidence above
    50. *)
Theorem X7_keep_best_changes_one_slot (arr : list bioData) (b : bioData) :
  length arr = 5%nat ->
  let out := V4.keep_best arr b in
  length out = 5%nat /\
  (forall i, confidence (arr !!! i) <= confidence (out !!! i)) /\
  (forall i, out !!! i = arr !!! i
             \/ (i = V4.minConfidenceIndex arr /\ out !!! i = b /\ 50 < confidence b)).
Proof.
  intros Hlen out. subst out.
  split; [by rewrite keep_best_length|].
  destruct (minConfidenceIndex_spec arr) as [Hm _].
  unfold V4.keep_best. set (m := V4.minConfidenceIndex arr) in *.
  destruct (Z.ltb_spec 50 (confidence b)) as [Hb|Hb]; [|split; intros i; [lia|by left]].
  destruct (Z.ltb_spec (confidence (arr !!! m)) (confidence b)) as [Hlt|Hge];
    [|split; intros i; [lia|by left]].
  split; intros i; destruct (decide (i = m)) as [->|Hne].
  - rewrite list_lookup_total_insert_eq by lia. lia.
  - rewrite list_lookup_total_insert_ne by done. lia.
  - right. by rewrite list_lookup_total_insert_eq by lia.
  - left. by rewrite list_lookup_total_insert_ne.
Qed.

(** X7 at a concrete input. *)
Lemma X7_witness :
  length (V4.topReadings g4_three) = 5%nat /\
  (forall i, confidence (V4.topReadings g4_three !!! i)
             <= confidence (V4.keep_best (V4.topReadings g4_three) (sensor env_five 0) !!! i)).
Proof.
  split; [reflexivity|].
  pose proof (X7_keep_best_changes_one_slot (V4.topReadings g4_three) (sensor env_five 0)
                eq_refl) as H.
  cbv zeta in H. destruct H as (_ & H & _). exact H.
Defined.

(** X8.  [setup] of v2 fetches twenty sensor records and leaves count and
    sums at zero, so the first iteration of [loop] works on the
    twenty-first record; [setup] of v3 and v4 fetch none.  v2 and v3 start
    the interval at the clock value read in [setup], v4 at zero. *)
Theorem X8_readings_fetched_by_setup e :
  (let r := V2.setup e V2.globals0 world0 in
   reads (world_of r) = 20%nat /\
   V2_empty (globals_of r) /\
   V2.lastDisplayTime (globals_of r) = clock e 0 /\
   V2.body (globals_of (V2.loop e (globals_of r) (world_of r))) = sensor e 20) /\
  (let r := V3.setup e V3.globals0 world0 in
   reads (world_of r) = 0%nat /\
   V3.readingCount (globals_of r) = 0%nat /\
   V3.lastDisplayTime (globals_of r) = clock e 0) /\
  (let r := V4.setup e V4.globals0 world0 in
   reads (world_of r) = 0%nat /\
   filter populated (V4.topReadings (globals_of r)) = [] /\
   V4.lastReportTime (globals_of r) = 0).
Proof.
  split; [|split].
  - cbv zeta. destruct (V2_setup_world e V2.globals0 world0) as (Hr & _ & Hl).
    split; [exact Hr|]. split; [by apply V2_setup_empty|]. split; [exact Hl|].
    rewrite V2_loop_globals. unfold V2_fetched. rewrite Hr.
    by destruct (V2_reports _ _ _), (V2.valid _).
  - cbv zeta. destruct (V3_setup_world e V3.globals0 world0) as [Hr _].
    rewrite V3_setup_globals. done.
  - cbv zeta. destruct (V4_setup_world e V4.globals0 world0) as [Hr _].
    rewrite (V4_setup_globals e V4.globals0 world0 eq_refl). done.
Qed.

(** X9.  The interval test survives the rollover of the 32-bit clock: when
    [d] milliseconds, fewer than 2^32, have passed since [last], the
    unsigned difference is [d] whatever the two clock values are, and the
    three sketches test [1000 <= d]. *)
Theorem X9_interval_survives_clock_rollover (last d : Z) :
  0 <= last < 2 ^ 32 -> 0 <= d < 2 ^ 32 ->
  let now := (last + d) mod 2 ^ 32 in
  ulong_sub now last = d /\
  V4.due now last = (1000 <=? d) /\
  (forall g, V3.lastDisplayTime g = last ->
     V3.due now g = (1000 <=? d) && (0 <? V3.readingCount g)%nat) /\
  (forall g, V2.lastDisplayTime g = last ->
     V2.due now g = (1000 <=? d) || (5 <=? V2.validReadingsCount g)%nat).
Proof.
  intros Hl Hd now.
  assert (H : ulong_sub now last = d).
  { unfold ulong_sub, now. rewrite Zminus_mod_idemp_l.
    replace (last + d - last) with d by lia. apply Z.mod_small. lia. }
  split; [done|]. split; [|split].
  - unfold V4.due, V4.reportInterval. by rewrite H.
  - intros g <-. unfold V3.due, V3.DISPLAY_INTERVAL. by rewrite H.
  - intros g <-. unfold V2.due, V2.DISPLAY_INTERVAL, V2.TARGET_READINGS. by rewrite H.
Qed.

(** X9 at a concrete input. *)
Lemma X9_witness :
  0 <= 2 ^ 32 - 500 < 2 ^ 32 /\ 0 <= 1000 < 2 ^ 32 /\
  ulong_sub ((2 ^ 32 - 500 + 1000) mod 2 ^ 32) (2 ^ 32 - 500) = 1000.
Proof.
  assert (H1 : 0 <= 2 ^ 32 - 500 < 2 ^ 32) by (vm_compute; split; [discriminate|reflexivity]).
  assert (H2 : 0 <= 1000 < 2 ^ 32) by (vm_compute; split; [discriminate|reflexivity]).
  split; [exact H1|]. split; [exact H2|].
  pose proof (X9_interval_survives_clock_rollover (2 ^ 32 - 500) 1000 H1 H2) as H.
  cbv zeta in H. destruct H as (H & _). exact H.
Defined.

(** X10.  What an empty window does.  v2 reports that there are no valid
    readings and restarts the interval; v3, with nothing stored and a
    reading that is not confident, neither reports nor prints nor touches
    [lastDisplayTime], whatever the clock says; v4 reports zero of five
    collected and no average. *)
Theorem X10_empty_window e (g2 : V2.globals) (g3 : V3.globals) (g4 : V4.globals) w :
  let b := sensor e (reads w) in
  (V2.validReadingsCount (V2_fetched e g2 w) = 0%nat -> V2_reports e g2 w = true ->
   let r := V2.loop e g2 w in
   existsb (says "No valid readings (confidence > 50) in the last second.")
     (emitted w (world_of r)) = true /\
   printed_after "AVERAGES (" (emitted w (world_of r)) = None /\
   V2.lastDisplayTime (globals_of r) = clock e (ticks w)) /\
  (V3.readingCount g3 = 0%nat -> ~ confident b ->
   let r := V3.loop e g3 w in
   V3_reports e g3 w = false /\
   globals_of r = V3.set_body b g3 /\
   filter (fun ev => is_print ev) (emitted w (world_of r)) = []) /\
  (length (V4.topReadings g4) = 5%nat ->
   filter populated (V4.keep_best (V4.topReadings g4) b) = [] ->
   V4_reports e g4 w = true ->
   let r := V4.loop e g4 w in
   printed_after "Collecting high-confidence data... (" (emitted w (world_of r))
     = Some (VInt 0) /\
   printed_after "Average Heart Rate: " (emitted w (world_of r)) = None).
Proof.
  intros b. split; [|split].
  - intros H0 Hr r. subst r. rewrite V2_loop_globals, Hr.
    split; [|split; [|done]].
    all: unfold V2_reports in Hr; unfold V2_fetched in *; unfold V2.loop; run_prog;
      fold b in H0, Hr |- *; destruct (V2.valid b); [cbn in H0; discriminate|];
      run_prog; rewrite Hr; run_prog; unfold V2.display;
      cbn [V2.set_body V2.validReadingsCount] in H0 |- *; rewrite H0;
      cbn [Nat.ltb Nat.leb]; run_prog; trace_out; reflexivity.
  - intros H0 Hb r. subst r.
    assert (Hst : V3.store (int_bits e) (V3.set_body b g3) = V3.set_body b g3).
    { unfold V3.store. cbn [V3.body V3.set_body].
      unfold confident in Hb. by rewrite (proj2 (Z.ltb_ge _ _)) by lia. }
    assert (Hr : V3_reports e g3 w = false).
    { unfold V3_reports, V3.due. fold b. rewrite Hst.
      cbn [V3.set_body V3.readingCount]. rewrite H0. apply andb_false_r. }
    split; [done|]. split.
    + rewrite V3_loop_globals, Hr. by fold b.
    + unfold V3_reports in Hr. unfold V3.loop. run_prog. rewrite Hr. run_prog. trace_out.
      reflexivity.
  - intros Hlen H0 Hr r. subst r.
    destruct (V4_loop_prints_average e g4 w Hlen Hr) as [Hiff Hmsg].
    cbv zeta in Hiff, Hmsg. fold b in Hiff, Hmsg. rewrite H0 in Hiff, Hmsg.
    split; [by apply Hmsg|].
    destruct (printed_after "Average Heart Rate: " _) eqn:E; [|done].
    exfalso. assert (Hs : is_Some (Some p)) by (by eexists). apply Hiff in Hs. discriminate.
Qed.

(** X10 at a concrete input. *)
Lemma X10_witness :
  (V2.validReadingsCount (V2_fetched env_quiet V2.globals0 world0) = 0%nat /\
   V2_reports env_quiet V2.globals0 world0 = true) /\
  (V3.readingCount V3.globals0 = 0%nat /\ ~ confident (sensor env_quiet (reads world0))) /\
  (length (V4.topReadings V4.globals0) = 5%nat /\
   filter populated (V4.keep_best (V4.topReadings V4.globals0) (sensor env_quiet (reads world0)))
     = [] /\
   V4_reports env_quiet V4.globals0 world0 = true) /\
  existsb (says "No valid readings (confidence > 50) in the last second.")
    (emitted world0 (world_of (V2.loop env_quiet V2.globals0 world0))) = true.
Proof.
  split; [split; reflexivity|]. split; [split; [reflexivity|vm_compute; discriminate]|].
  split; [repeat split|].
  pose proof (X10_empty_window env_quiet V2.globals0 V3.globals0 V4.globals0 world0) as H.
  cbv zeta in H. destruct H as (H & _). exact (proj1 (H eq_refl eq_refl)).
Defined.

(** X11.  In v3, once the interval has elapsed with nothing stored, the
    next confident reading is reported in the iteration that fetches it,
    alone: one reading collected, and as averages the values of the one
    stored entry, which are the reading's values as the board's [int]
    holds them: [float_mean] of the one heart rate and of the one oxygen
    value, and the two LED counts as [long]s. *)
Theorem X11_v3_late_reading_reported_alone e (g : V3.globals) w :
  let b := sensor e (reads w) in
  let r := V3.of_bio (int_bits e) b in
  let evs := emitted w (world_of (V3.loop e g w)) in
  V3.readingCount g = 0%nat -> (0 < length (V3.readings g))%nat ->
  confident b ->
  interval_elapsed (clock e (ticks w)) (V3.lastDisplayTime g) ->
  V3_reports e g w = true /\
  printed_after "Total readings collected: " evs = Some (VInt 1) /\
  printed_after "Average Heartrate: " evs = Some (VFlt (float_mean [V3.heartRate r]) 1) /\
  printed_after "Average Blood Oxygen: " evs = Some (VFlt (float_mean [V3.oxygen r]) 1) /\
  printed_after "Average IR LED: " evs = Some (VInt (to_long (V3.irLed r))) /\
  printed_after "Average Red LED: " evs = Some (VInt (to_long (V3.redLed r))).
Proof.
  intros b r evs H0 Hlen Hb He. subst evs.
  assert (Hst : V3.store (int_bits e) (V3.set_body b g) =
                V3.set_readingCount 1
                  (V3.set_readings (<[0%nat := r]> (V3.readings g)) (V3.set_body b g))).
  { unfold V3.store. cbn [V3.body V3.set_body V3.readingCount V3.readings]. rewrite H0.
    unfold confident in Hb. by rewrite (proj2 (Z.ltb_lt _ _) Hb). }
  assert (Hr : V3_reports e g w = true).
  { unfold V3_reports, V3.due, V3.DISPLAY_INTERVAL. fold b. rewrite Hst.
    cbn [V3.set_body V3.set_readingCount V3.set_readings V3.readingCount V3.lastDisplayTime].
    apply andb_true_iff. split; [by apply Z.leb_le|done]. }
  split; [done|].
  split; [rewrite V3_loop_prints_total by done; fold b; by rewrite Hst|].
  pose proof (V3_loop_prints_means e g w) as H. cbv zeta in H. fold b in H.
  rewrite Hst in H.
  cbn [V3.set_body V3.set_readingCount V3.set_readings V3.readingCount V3.readings
       Nat.min V3.sortReadingsByConfidence V3.sort_passes Nat.sub] in H.
  rewrite length_insert in H. specialize (H Hlen Hr).
  destruct (V3.readings g) as [|r0 rest]; [simpl in Hlen; lia|].
  cbn [insert list_insert take fmap list_fmap] in H.
  destruct H as (_ & _ & H1 & H2 & _ & H4 & H5).
  unfold long_mean in H4, H5. cbn [sumZ foldr length] in H4, H5.
  change (Z.of_nat 1) with 1 in H4, H5. rewrite Z.add_0_r, Z.quot_1_r in H4, H5.
  done.
Qed.

(** X11 at a board with 16-bit [int], where an IR count of 100000 is
    stored, and reported, as -31072. *)
Lemma X11_witness :
  V3.readingCount V3.globals0 = 0%nat /\
  (0 < length (V3.readings V3.globals0))%nat /\
  confident (sensor env_avr (reads world0)) /\
  interval_elapsed (clock env_avr (ticks world0)) (V3.lastDisplayTime V3.globals0) /\
  irLed (sensor env_avr (reads world0)) = 100000 /\
  printed_after "Total readings collected: "
    (emitted world0 (world_of (V3.loop env_avr V3.globals0 world0))) = Some (VInt 1) /\
  printed_after "Average IR LED: "
    (emitted world0 (world_of (V3.loop env_avr V3.globals0 world0))) = Some (VInt (-31072)).
Proof.
  assert (H2 : (0 < length (V3.readings V3.globals0))%nat) by (vm_compute; lia).
  assert (H3 : confident (sensor env_avr (reads world0))) by (vm_compute; reflexivity).
  assert (H4 : interval_elapsed (clock env_avr (ticks world0)) (V3.lastDisplayTime V3.globals0))
    by (vm_compute; discriminate).
  split; [reflexivity|]. split; [exact H2|]. split; [exact H3|]. split; [exact H4|].
  split; [reflexivity|].
  pose proof (X11_v3_late_reading_reported_alone env_avr V3.globals0 world0 eq_refl H2 H3 H4)
    as H.
  destruct H as (_ & H & _ & _ & H5 & _). split; [exact H|exact H5].
Defined.

(** X12.  In v4 the confidences held in the buffer do not depend on the
    order in which the confident readings of the window arrived. *)
Theorem X12_v4_order_of_arrival_is_irrelevant e1 e2 k1 k2 :
  let '(g1, _, win1) := V4_windowed e1 k1 in
  let '(g2, _, win2) := V4_windowed e2 k2 in
  filter confident win1 ≡ₚ filter confident win2 ->
  sort_desc (confidence <$> filter populated (V4.topReadings g1))
  = sort_desc (confidence <$> filter populated (V4.topReadings g2)).
Proof.
  pose proof (V4_windowed_inv e1 k1) as H1. pose proof (V4_windowed_inv e2 k2) as H2.
  destruct (V4_windowed e1 k1) as [[g1 w1] win1].
  destruct (V4_windowed e2 k2) as [[g2 w2] win2].
  intros Hp. rewrite (V4_inv_top _ _ H1), (V4_inv_top _ _ H2).
  unfold top_k. f_equal. apply (StronglySorted_unique desc); [apply sort_desc_sorted..|].
  rewrite !sort_desc_perm. unfold accepted. by rewrite Hp.
Qed.

(** X12 at a concrete input. *)
Lemma X12_witness :
  (let '(_, _, win1) := V4_windowed env_five 3 in
   let '(_, _, win2) := V4_windowed env_five_swapped 3 in
   win1 <> win2 /\ filter confident win1 ≡ₚ filter confident win2) /\
  (let '(g1, _, win1) := V4_windowed env_five 3 in
   let '(g2, _, win2) := V4_windowed env_five_swapped 3 in
   filter confident win1 ≡ₚ filter confident win2 ->
   sort_desc (confidence <$> filter populated (V4.topReadings g1))
   = sort_desc (confidence <$> filter populated (V4.topReadings g2))).
Proof.
  split; [vm_compute; split; [discriminate|apply perm_swap]|].
  exact (X12_v4_order_of_arrival_is_irrelevant env_five env_five_swapped 3 3).
Defined.

(** X13.  After [setup] and any number of iterations the arrays keep their
    declared sizes and the indices are within them: [readingCount] is at
    most the size of [readings], and [minConfidenceIndex] is below the
    size of [topReadings]. *)
Theorem X13_array_indices_in_bounds e k :
  (let '(g, _, _) := V3_windowed e k in
   length (V3.readings g) = V3.MAX_READINGS /\
   (V3.readingCount g <= length (V3.readings g))%nat) /\
  (let '(g, _, _) := V4_windowed e k in
   length (V4.topReadings g) = V4.NUM_READINGS /\
   (V4.minConfidenceIndex (V4.topReadings g) < length (V4.topReadings g))%nat).
Proof.
  split.
  - pose proof (V3_windowed_inv e k) as H. destruct (V3_windowed e k) as [[g w] win].
    destruct H as (Hlen & Hcnt & _). split; [done|]. rewrite Hcnt, Hlen, length_take. lia.
  - pose proof (V4_windowed_inv e k) as H. destruct (V4_windowed e k) as [[g w] win].
    destruct H as (Hlen & _). split; [done|]. rewrite Hlen.
    apply minConfidenceIndex_spec.
Qed.

(** X14.  The number a report prints is the size of its window: v2 prints
    the number of valid readings, between one and five; v3 prints as
    total the number of confident readings, capped at [MAX_READINGS]. *)
Theorem X14_reports_print_the_window_size e k :
  (let '(g, w, win) := V2_windowed e k in
   let vs := filter (fun b => V2.valid b) (win ++ [sensor e (reads w)]) in
   V2_reports e g w = true -> vs <> [] ->
   (1 <= length vs <= 5)%nat /\
   printed_after "AVERAGES (" (emitted w (world_of (V2.loop e g w)))
   = Some (VInt (Z.of_nat (length vs)))) /\
  (let '(g, w, win) := V3_windowed e k in
   let cs := filter confident (win ++ [sensor e (reads w)]) in
   V3_reports e g w = true ->
   (1 <= length cs)%nat /\
   printed_after "Total readings collected: " (emitted w (world_of (V3.loop e g w)))
   = Some (VInt (Z.of_nat (Nat.min V3.MAX_READINGS (length cs))))).
Proof.
  split.
  - pose proof (V2_windowed_inv e k) as Hinv.
    destruct (V2_windowed e k) as [[g w] win]. intros vs Hr Hvs.
    pose proof (V2_inv_fetch e g w win Hinv) as (Hcnt & _). fold vs in Hcnt.
    destruct Hinv as (Hlt & Hc & _).
    assert (Hpos : (1 <= length vs)%nat) by (destruct vs; [done|simpl; lia]).
    split.
    + split; [done|]. rewrite <- Hcnt. unfold V2_fetched.
      destruct (V2.valid _); cbn; lia.
    + rewrite V2_loop_prints_count by (done || lia). by rewrite Hcnt.
  - pose proof (V3_windowed_inv e k) as Hinv.
    destruct (V3_windowed e k) as [[g w] win]. intros cs Hr.
    destruct (V3_inv_store _ g win (sensor e (reads w)) Hinv) as (_ & Hcnt & _).
    fold cs in Hcnt. rewrite length_take in Hcnt.
    rewrite V3_loop_prints_total by done. rewrite Hcnt. split; [|done].
    unfold V3_reports, V3.due in Hr. apply andb_true_iff in Hr as [_ Hr].
    apply Nat.ltb_lt in Hr. rewrite Hcnt in Hr. lia.
Qed.

(** X14 at a concrete input. *)
Lemma X14_witness :
  (let '(g, w, win) := V2_windowed env_five 4 in
   V2_reports env_five g w = true /\
   filter (fun b => V2.valid b) (win ++ [sensor env_five (reads w)]) <> []) /\
  (let '(g, w, win) := V2_windowed env_five 4 in
   let vs := filter (fun b => V2.valid b) (win ++ [sensor env_five (reads w)]) in
   V2_reports env_five g w = true -> vs <> [] ->
   (1 <= length vs <= 5)%nat /\
   printed_after "AVERAGES (" (emitted w (world_of (V2.loop env_five g w)))
   = Some (VInt (Z.of_nat (length vs)))).
Proof.
  split; [vm_compute; split; [reflexivity|discriminate]|].
  pose proof (X14_reports_print_the_window_size env_five 4) as H.
  destruct H as [H _]. exact H.
Defined.
